(** * Agent turn engine of dongshan-cli (src/chat.rs), shallow embedding.

    Text is modelled byte-wise: a Rust [&str] is a Rocq [string], whose
    characters are the UTF-8 bytes of the Rust string, so Rust byte indices
    are Rocq positions.  Character counting ([chars().count()]) counts the
    bytes that start a UTF-8 scalar value.  Whitespace ([trim],
    [split_whitespace]) is the ASCII part of [char::is_whitespace]. *)

From Stdlib Require Import String Ascii List Bool Arith Lia.
From Stdlib Require Import Numbers.DecimalString.
Import ListNotations.
Open Scope list_scope.
Open Scope string_scope.
Open Scope nat_scope.
Set Warnings "-register-all,-abstract-large-number".

(* ------------------------------------------------------------------ *)
(** ** Rust [str] operations *)
Module Str.

Definition nl : string := String (ascii_of_nat 10) "".

Definition show_nat (n : nat) : string := NilZero.string_of_uint (Nat.to_uint n).

(** [u8::to_ascii_lowercase] *)
Definition lower_byte (c : ascii) : ascii :=
  let n := nat_of_ascii c in
  if (65 <=? n) && (n <=? 90) then ascii_of_nat (n + 32) else c.

(** [str::to_ascii_lowercase] *)
Fixpoint lower (s : string) : string :=
  match s with
  | EmptyString => EmptyString
  | String c r => String (lower_byte c) (lower r)
  end.

(** ASCII part of [char::is_whitespace]: U+0009..U+000D and U+0020. *)
Definition is_ws (c : ascii) : bool :=
  let n := nat_of_ascii c in ((9 <=? n) && (n <=? 13)) || (n =? 32).

Fixpoint trim_start (s : string) : string :=
  match s with
  | EmptyString => EmptyString
  | String c r => if is_ws c then trim_start r else s
  end.

Fixpoint rev_str (s : string) : string :=
  match s with
  | EmptyString => EmptyString
  | String c r => rev_str r ++ String c EmptyString
  end.

Definition trim_end (s : string) : string := rev_str (trim_start (rev_str s)).

(** [str::trim] *)
Definition trim (s : string) : string := trim_end (trim_start s).

(** [str::starts_with] *)
Definition starts_with (s p : string) : bool := String.prefix p s.

(** [str::find]: byte index of the first occurrence of [p] in [s]. *)
Fixpoint find (s p : string) : option nat :=
  if String.prefix p s then Some 0 else
  match s with
  | EmptyString => None
  | String _ r => option_map S (find r p)
  end.

(** [str::contains] *)
Definition contains (s p : string) : bool :=
  match find s p with Some _ => true | None => false end.

(** [&s[n..]] and [&s[..n]] *)
Fixpoint drop (n : nat) (s : string) : string :=
  match n, s with
  | 0, _ => s
  | S _, EmptyString => EmptyString
  | S k, String _ r => drop k r
  end.

Fixpoint take (n : nat) (s : string) : string :=
  match n, s with
  | 0, _ => EmptyString
  | S _, EmptyString => EmptyString
  | S k, String c r => String c (take k r)
  end.

(** Byte at index [i] ([text.as_bytes()[i]]). *)
Definition byte_at (s : string) (i : nat) : option ascii := String.get i s.

(** A byte that starts a UTF-8 scalar value (not [0b10xxxxxx]). *)
Definition is_char_start (c : ascii) : bool :=
  let n := nat_of_ascii c in negb ((128 <=? n) && (n <? 192)).

(** [str::chars().count()] *)
Fixpoint chars_count (s : string) : nat :=
  match s with
  | EmptyString => 0
  | String c r => (if is_char_start c then 1 else 0) + chars_count r
  end.

(** The [char_indices] loop of [util::truncate_with_suffix]: the bytes kept
    before the cut and the number of characters counted. *)
Fixpoint cut_chars (s : string) (count max : nat) : string * nat :=
  match s with
  | EmptyString => (EmptyString, count)
  | String c r =>
      if is_char_start c then
        if count =? max then (EmptyString, count)
        else let (p, k) := cut_chars r (S count) max in (String c p, k)
      else let (p, k) := cut_chars r count max in (String c p, k)
  end.

(** [util::truncate_with_suffix] *)
Definition truncate_with_suffix (text : string) (max_chars : nat) (suffix : string)
  : string :=
  let (kept, count) := cut_chars text 0 max_chars in
  if count <? max_chars then text else kept ++ suffix.

(** [str::replace('\n', " ")] *)
Fixpoint replace_nl (s : string) : string :=
  match s with
  | EmptyString => EmptyString
  | String c r =>
      if Ascii.eqb c (ascii_of_nat 10) then String " " (replace_nl r)
      else String c (replace_nl r)
  end.

(** [str::split_whitespace] (ASCII whitespace). *)
Fixpoint split_ws_go (s : string) (cur : string) : list string :=
  match s with
  | EmptyString => if String.eqb cur "" then [] else [rev_str cur]
  | String c r =>
      if is_ws c then
        (if String.eqb cur "" then [] else [rev_str cur]) ++ split_ws_go r ""
      else split_ws_go r (String c cur)
  end.

Definition split_whitespace (s : string) : list string := split_ws_go s "".

(** [str::trim_matches(c)] for a single byte [c]. *)
Fixpoint trim_start_byte (c : ascii) (s : string) : string :=
  match s with
  | EmptyString => EmptyString
  | String d r => if Ascii.eqb c d then trim_start_byte c r else s
  end.

Definition trim_matches (c : ascii) (s : string) : string :=
  rev_str (trim_start_byte c (rev_str (trim_start_byte c s))).

(** [str::ends_with] *)
Definition ends_with (s p : string) : bool := String.prefix (rev_str p) (rev_str s).

(** [lines.join(sep)] *)
Definition join (sep : string) (l : list string) : string := String.concat sep l.

End Str.
Import Str.

(* ------------------------------------------------------------------ *)
(** ** [serde_json::Value] and [serde_json::from_str] *)
Module Json.

Inductive Value : Type :=
| Null
| Bool (b : bool)
| Number (lexeme : string)
| Str (s : string)
| Array (items : list Value)
| Object (entries : list (string * Value)).

(** [Map::get]: object keys are unique in a [serde_json::Map], a later
    duplicate key replacing an earlier one while parsing; the entry list
    keeps source order, so the last entry with the key is the one read. *)
Definition obj_get {A} (k : string) (kvs : list (string * A)) : option A :=
  match List.find (fun kv => String.eqb (fst kv) k) (rev kvs) with
  | Some (_, v) => Some v
  | None => None
  end.

(** [Value::as_str] *)
Definition as_str (v : Value) : option string :=
  match v with Str s => Some s | _ => None end.

(** JSON whitespace (RFC 8259). *)
Definition json_ws (c : ascii) : bool :=
  let n := nat_of_ascii c in (n =? 32) || (n =? 9) || (n =? 10) || (n =? 13).

Fixpoint skip_json_ws (s : string) : string :=
  match s with
  | String c r => if json_ws c then skip_json_ws r else s
  | EmptyString => EmptyString
  end.

Definition is_digit (c : ascii) : bool :=
  let n := nat_of_ascii c in (48 <=? n) && (n <=? 57).

Definition hex_val (c : ascii) : option nat :=
  let n := nat_of_ascii c in
  if (48 <=? n) && (n <=? 57) then Some (n - 48)
  else if (97 <=? n) && (n <=? 102) then Some (n - 87)
  else if (65 <=? n) && (n <=? 70) then Some (n - 55)
  else None.

(** UTF-8 encoding of a scalar value below U+10000. *)
Definition utf8_bmp (cp : nat) : string :=
  if cp <? 128 then String (ascii_of_nat cp) ""
  else if cp <? 2048 then
    String (ascii_of_nat (192 + cp / 64)) (String (ascii_of_nat (128 + cp mod 64)) "")
  else
    String (ascii_of_nat (224 + cp / 4096))
      (String (ascii_of_nat (128 + (cp / 64) mod 64))
         (String (ascii_of_nat (128 + cp mod 64)) "")).

(** Body of a JSON string literal after the opening quote: the decoded
    bytes (reversed) and the input after the closing quote.  Escaped
    surrogate code points ([\uD800]..[\uDFFF]) are not decoded and make
    the parse fail. *)
Fixpoint parse_str_body (s : string) (acc : string) : option (string * string) :=
  match s with
  | EmptyString => None
  | String c r =>
      let n := nat_of_ascii c in
      if n =? 34 then Some (rev_str acc, r)
      else if n <? 32 then None
      else if n =? 92 then
        match r with
        | EmptyString => None
        | String e r' =>
            let m := nat_of_ascii e in
            if m =? 34 then parse_str_body r' (String (ascii_of_nat 34) acc)
            else if m =? 92 then parse_str_body r' (String "\" acc)
            else if m =? 47 then parse_str_body r' (String "/" acc)
            else if m =? 98 then parse_str_body r' (String (ascii_of_nat 8) acc)
            else if m =? 102 then parse_str_body r' (String (ascii_of_nat 12) acc)
            else if m =? 110 then parse_str_body r' (String (ascii_of_nat 10) acc)
            else if m =? 114 then parse_str_body r' (String (ascii_of_nat 13) acc)
            else if m =? 116 then parse_str_body r' (String (ascii_of_nat 9) acc)
            else if m =? 117 then
              match r' with
              | String h1 (String h2 (String h3 (String h4 r''))) =>
                  match hex_val h1, hex_val h2, hex_val h3, hex_val h4 with
                  | Some a, Some b, Some d, Some e4 =>
                      let cp := a * 4096 + b * 256 + d * 16 + e4 in
                      if (55296 <=? cp) && (cp <=? 57343) then None
                      else parse_str_body r'' (rev_str (utf8_bmp cp) ++ acc)
                  | _, _, _, _ => None
                  end
              | _ => None
              end
            else None
        end
      else parse_str_body r (String c acc)
  end.

Fixpoint span_digits (s : string) : string * string :=
  match s with
  | String c r =>
      if is_digit c then let (d, rest) := span_digits r in (String c d, rest)
      else (EmptyString, s)
  | EmptyString => (EmptyString, EmptyString)
  end.

(** Integer part: a single [0] or a non-zero digit followed by digits. *)
Definition parse_int_part (s : string) : option (string * string) :=
  match s with
  | String "0" r => Some ("0", r)
  | _ => match span_digits s with
         | (EmptyString, _) => None
         | (d, r) => Some (d, r)
         end
  end.

Definition parse_frac (s : string) : option (string * string) :=
  match s with
  | String "." r =>
      match span_digits r with
      | (EmptyString, _) => None
      | (d, r') => Some ("." ++ d, r')
      end
  | _ => Some ("", s)
  end.

Definition parse_exp (s : string) : option (string * string) :=
  let digits e r :=
    match span_digits r with
    | (EmptyString, _) => None
    | (d, r') => Some (e ++ d, r')
    end in
  match s with
  | String e r =>
      if Ascii.eqb e "e" || Ascii.eqb e "E" then
        match r with
        | String "+" r' => digits (String e "+") r'
        | String "-" r' => digits (String e "-") r'
        | _ => digits (String e "") r
        end
      else Some ("", s)
  | EmptyString => Some ("", s)
  end.

Definition parse_number (s : string) : option (Value * string) :=
  let (sign, s1) := match s with
                    | String "-" r => ("-", r)
                    | _ => ("", s)
                    end in
  match parse_int_part s1 with
  | None => None
  | Some (i, s2) =>
      match parse_frac s2 with
      | None => None
      | Some (fr, s3) =>
          match parse_exp s3 with
          | None => None
          | Some (ex, s4) => Some (Number (sign ++ i ++ fr ++ ex), s4)
          end
      end
  end.

(** Recursive descent with a fuel bound; each unit of fuel is spent
    together with at least one byte of input. *)
Fixpoint parse_value (fuel : nat) (s : string) : option (Value * string) :=
  match fuel with
  | 0 => None
  | S f =>
      match skip_json_ws s with
      | EmptyString => None
      | String c r as s' =>
          let n := nat_of_ascii c in
          if n =? 123 then
            match skip_json_ws r with
            | String "}" r' => Some (Object [], r')
            | r' => parse_members f r' []
            end
          else if n =? 91 then
            match skip_json_ws r with
            | String "]" r' => Some (Array [], r')
            | r' => parse_elems f r' []
            end
          else if n =? 34 then
            match parse_str_body r "" with
            | Some (str, r') => Some (Str str, r')
            | None => None
            end
          else if String.prefix "true" s' then Some (Bool true, drop 4 s')
          else if String.prefix "false" s' then Some (Bool false, drop 5 s')
          else if String.prefix "null" s' then Some (Null, drop 4 s')
          else parse_number s'
      end
  end
with parse_elems (fuel : nat) (s : string) (acc : list Value)
  : option (Value * string) :=
  match fuel with
  | 0 => None
  | S f =>
      match parse_value f s with
      | None => None
      | Some (v, r) =>
          match skip_json_ws r with
          | String "," r' => parse_elems f r' (v :: acc)
          | String "]" r' => Some (Array (rev (v :: acc)), r')
          | _ => None
          end
      end
  end
with parse_members (fuel : nat) (s : string) (acc : list (string * Value))
  : option (Value * string) :=
  match fuel with
  | 0 => None
  | S f =>
      match skip_json_ws s with
      | String q r =>
          if Ascii.eqb q (ascii_of_nat 34) then
            match parse_str_body r "" with
            | None => None
            | Some (k, r1) =>
                match skip_json_ws r1 with
                | String ":" r2 =>
                    match parse_value f r2 with
                    | None => None
                    | Some (v, r3) =>
                        match skip_json_ws r3 with
                        | String "," r4 => parse_members f r4 ((k, v) :: acc)
                        | String "}" r4 => Some (Object (rev ((k, v) :: acc)), r4)
                        | _ => None
                        end
                    end
                | _ => None
                end
            end
          else None
      | EmptyString => None
      end
  end.

(** [serde_json::from_str::<Value>]: one value, then only whitespace.
    (serde_json's nesting limit of 128 is not modelled.) *)
Definition from_str (s : string) : option Value :=
  match parse_value (2 * String.length s + 2) s with
  | Some (v, r) => if String.eqb (skip_json_ws r) "" then Some v else None
  | None => None
  end.

End Json.
Import Json.

(* ------------------------------------------------------------------ *)
(** ** Tool-call extraction (ToolCallExtractor) *)
Module Extract.

Record ToolCall := mk_call { tool : string; command : string }.

(** Calls of a list of object entries, computed for each entry's value; a
    helper of [collect_tool_calls_from_value] so that the recursion into
    [map.get("tool_calls")] stays structural. *)
Definition string_field (kvs : list (string * Value)) (k1 k2 : string) : string :=
  match (match obj_get k1 kvs with Some v => Some v | None => obj_get k2 kvs end) with
  | Some v => match as_str v with Some s => s | None => "" end
  | None => ""
  end.

(** [collect_tool_calls_from_value]: the calls it pushes onto [out]. *)
Fixpoint collect_tool_calls_from_value (v : Value) : list ToolCall :=
  match v with
  | Array items =>
      (fix items_calls (l : list Value) : list ToolCall :=
         match l with
         | [] => []
         | x :: r => collect_tool_calls_from_value x ++ items_calls r
         end)%list items
  | Object kvs =>
      let sub := (fix entries_calls (l : list (string * Value))
                    : list (string * list ToolCall) :=
                    match l with
                    | [] => []
                    | (k, x) :: r => (k, collect_tool_calls_from_value x) :: entries_calls r
                    end)%list kvs in
      match obj_get "tool_calls" sub with
      | Some calls => calls
      | None =>
          let t := string_field kvs "tool" "type" in
          let c := string_field kvs "command" "cmd" in
          if negb (String.eqb (trim t) "") && negb (String.eqb (trim c) "")
          then [mk_call t c] else []
      end
  | _ => []
  end.

(** Index of the first byte at or after [j] that is not a space, tab, CR or LF. *)
Fixpoint skip_fence_ws (fuel : nat) (text : string) (j : nat) : nat :=
  match fuel with
  | 0 => j
  | S f =>
      match byte_at text j with
      | Some c =>
          let n := nat_of_ascii c in
          if (n =? 32) || (n =? 9) || (n =? 13) || (n =? 10)
          then skip_fence_ws f text (S j) else j
      | None => j
      end
  end.

(** The [while i < text.len()] loop of [collect_tool_calls_from_fence];
    [i] grows by at least one per iteration, so [text.len() + 1]
    iterations suffice. *)
Fixpoint fence_loop (fuel : nat) (text open close : string)
  (skip_if_prev_backtick : bool) (i : nat) (out : list ToolCall) : list ToolCall :=
  match fuel with
  | 0 => out
  | S f =>
      if i <? String.length text then
        match find (drop i text) open with
        | None => out
        | Some pos =>
            let open_idx := i + pos in
            if skip_if_prev_backtick && (0 <? open_idx)
               && (match byte_at text (open_idx - 1) with
                   | Some b => Ascii.eqb b "`"
                   | None => false
                   end)
            then fence_loop f text open close skip_if_prev_backtick
                   (open_idx + String.length open) out
            else
              let json_start :=
                skip_fence_ws (String.length text) text (open_idx + String.length open) in
              if String.length text <=? json_start then out
              else
                let rest := drop json_start text in
                match find rest close with
                | None => out
                | Some end_rel =>
                    let block := trim (take end_rel rest) in
                    let out' :=
                      if negb (String.eqb block "") then
                        match from_str block with
                        | Some value => (out ++ collect_tool_calls_from_value value)%list
                        | None => out
                        end
                      else out in
                    fence_loop f text open close skip_if_prev_backtick
                      (json_start + end_rel + String.length close) out'
                end
        end
      else out
  end.

Definition collect_tool_calls_from_fence (text open close : string)
  (skip_if_prev_backtick : bool) (out : list ToolCall) : list ToolCall :=
  fence_loop (S (String.length text)) text open close skip_if_prev_backtick 0 out.

(** The scanning loop of [find_matching_brace] from byte index [i] on,
    [l] being the bytes from [i] to the end. *)
Fixpoint brace_scan (l : string) (i depth : nat) (in_string escaped : bool)
  : option nat :=
  match l with
  | EmptyString => None
  | String b r =>
      if in_string then
        if escaped then brace_scan r (S i) depth true false
        else if Ascii.eqb b "\" then brace_scan r (S i) depth true true
        else if Ascii.eqb b (ascii_of_nat 34) then brace_scan r (S i) depth false false
        else brace_scan r (S i) depth true false
      else if Ascii.eqb b (ascii_of_nat 34) then brace_scan r (S i) depth true escaped
      else if Ascii.eqb b "{" then brace_scan r (S i) (S depth) false escaped
      else if Ascii.eqb b "}" then
        match depth with
        | 0 => None
        | 1 => Some i
        | S d => brace_scan r (S i) d false escaped
        end
      else brace_scan r (S i) depth false escaped
  end.

Definition find_matching_brace (text : string) (start : nat) : option nat :=
  match byte_at text start with
  | Some "{"%char => brace_scan (drop start text) start 0 false false
  | _ => None
  end.

(** The loop of [collect_tool_calls_from_inline_json]. *)
Fixpoint inline_loop (fuel : nat) (text : string) (i : nat) (out : list ToolCall)
  : list ToolCall :=
  match fuel with
  | 0 => out
  | S f =>
      match byte_at text i with
      | None => out
      | Some b =>
          if negb (Ascii.eqb b "{") then inline_loop f text (S i) out
          else
            match find_matching_brace text i with
            | None => inline_loop f text (S i) out
            | Some e =>
                let candidate := take (S e - i) (drop i text) in
                if contains candidate (String (ascii_of_nat 34) "tool_calls" ++ String (ascii_of_nat 34) "")
                then match from_str candidate with
                     | Some value =>
                         inline_loop f text (S e) (out ++ collect_tool_calls_from_value value)%list
                     | None => inline_loop f text (S i) out
                     end
                else inline_loop f text (S i) out
            end
      end
  end.

Definition collect_tool_calls_from_inline_json (text : string) (out : list ToolCall)
  : list ToolCall :=
  inline_loop (S (String.length text)) text 0 out.

Definition extract_tool_calls (text : string) : list ToolCall :=
  let out := collect_tool_calls_from_fence text "```json" "```" false [] in
  let out := collect_tool_calls_from_fence text "``json" "``" true out in
  collect_tool_calls_from_inline_json text out.

Definition contains_legacy_shell_block (text : string) : bool :=
  let t := lower text in
  contains t "```bash" || contains t "```sh" || contains t "```powershell"
  || contains t "```pwsh" || contains t "```cmd".

Definition contains_tool_call_hint (text : string) : bool :=
  let t := lower text in
  contains t "tool_calls" || contains t (String (ascii_of_nat 34) "tool" ++ String (ascii_of_nat 34) "")
  || contains t "```json" || contains t "``json".

End Extract.
Import Extract.

Definition dq : string := String (ascii_of_nat 34) "".

(* ------------------------------------------------------------------ *)
(** ** Command safety (CommandSafetyEngine) *)
Module Policy.

Inductive AutoExecMode := Safe | All | Custom.

(** The fields of [config::Config] read by the agent turn engine. *)
Record Config := mk_config {
  auto_exec_mode : AutoExecMode;
  auto_exec_allow : list string;
  auto_exec_deny : list string;
  auto_confirm_exec : bool;
  auto_exec_trusted : list string;
  history_max_messages : nat;
  history_max_chars : nat
}.

Definition matches_list (l : list string) (cmd : string) : bool :=
  let cmd_l := lower cmd in
  existsb (fun item =>
             let s := lower (trim item) in
             negb (String.eqb s "") && starts_with cmd_l s) l.

Definition is_safe_auto_exec_command (cmd : string) : bool :=
  match split_whitespace cmd with
  | [] => false
  | first :: parts =>
      let f := lower first in
      if existsb (String.eqb f)
           ["ls"; "dir"; "pwd"; "cat"; "type"; "rg"; "grep"; "findstr"; "tree"; "find"]
      then true
      else if String.eqb f "get-childitem" || String.eqb f "get-content"
              || String.eqb f "get-location" then true
      else if String.eqb f "git" then
        match parts with
        | second :: _ =>
            existsb (String.eqb (lower second)) ["status"; "diff"; "log"; "show"; "branch"]
        | [] => false
        end
      else false
  end.

Definition is_command_allowed (cfg : Config) (cmd : string) : bool :=
  if matches_list (auto_exec_deny cfg) cmd then false
  else match auto_exec_mode cfg with
       | All => true
       | Safe => is_safe_auto_exec_command cmd
       | Custom => matches_list (auto_exec_allow cfg) cmd
       end.

Definition is_trusted_command (cfg : Config) (cmd : string) : bool :=
  matches_list (auto_exec_trusted cfg) cmd.

Definition eq_ignore_ascii_case (a b : string) : bool := String.eqb (lower a) (lower b).

Definition command_prefix (cmd : string) : string :=
  match split_whitespace cmd with
  | [] => ""
  | first :: rest =>
      if eq_ignore_ascii_case first "git" then
        match rest with
        | second :: _ => "git " ++ second
        | [] => first
        end
      else first
  end.

(** The [for idx in 0..tokens.len()] loop of the [pip -r] check. *)
Fixpoint pip_requirements_check (file_exists : string -> bool) (toks : list string)
  : option string :=
  match toks with
  | t :: ((req :: _) as rest) =>
      if String.eqb t "-r" then
        let r := trim_matches "'" (trim_matches (ascii_of_nat 34) req) in
        if negb (file_exists r) then Some ("requirements file not found: " ++ r)
        else pip_requirements_check file_exists rest
      else pip_requirements_check file_exists rest
  | _ => None
  end.

(** [precheck_command]; [file_exists] is [Path::new(p).exists()]. *)
Definition precheck_command (file_exists : string -> bool) (cmd : string) : option string :=
  match split_whitespace cmd with
  | [] => Some "empty command"
  | tok0 :: toks =>
      let first := lower tok0 in
      let low := lower cmd in
      let is_python := String.eqb first "python" || String.eqb first "python3" in
      if (contains low "base64" || contains low "frombase64string"
          || contains low "[convert]::frombase64string") && (700 <? String.length cmd)
      then Some "base64 payload too long; use small script file workflow instead"
      else if is_python && contains low " -c "
              && (contains cmd nl || (360 <? String.length cmd))
      then Some "python -c is too long/multiline; write .py file then run it"
      else
        let script_check :=
          if is_python then
            match toks with
            | t1 :: _ =>
                let script := trim_matches "'" (trim_matches (ascii_of_nat 34) t1) in
                if ends_with script ".py" && negb (file_exists script)
                then Some ("script not found: " ++ script) else None
            | [] => None
            end
          else None in
        match script_check with
        | Some r => Some r
        | None =>
            if String.eqb first "pip" && contains cmd "-r"
            then pip_requirements_check file_exists (tok0 :: toks)
            else None
        end
  end.

Definition looks_like_command_failure (output : string) : bool :=
  let s := lower output in
  contains s "commandnotfoundexception" || contains s "can't open file"
  || contains s "no such file" || contains s "module not found"
  || contains s "traceback" || contains s "is not recognized".

End Policy.
Import Policy.

(* ------------------------------------------------------------------ *)
(** ** One execution pass over a reply ([maybe_execute_assistant_commands]) *)
Module Exec.

Definition MAX_AUTO_TOOL_STEPS := 3.
Definition MAX_COMMANDS_PER_RESPONSE := 8.
Definition MAX_FAILED_COMMANDS_PER_RESPONSE := 2.
Definition MAX_INVALID_FORMAT_RETRIES := 2.

(** The environment the engine talks to: the file system
    ([Path::exists]), the shell ([run_shell_command], queried with the
    number of commands run so far; [None] is its [Err]) and the terminal
    ([util::ask], queried with the number of prompts so far). *)
Record Env := mk_env {
  file_exists : string -> bool;
  run_shell : nat -> string -> option string;
  ask_user : nat -> option string
}.

(** What the environment has seen: the commands handed to the shell, in
    order, and the number of confirmation prompts. *)
Record World := mk_world { runs : list string; asks : nat }.

Record ExecResult := mk_result {
  executed_any : bool;
  had_blocks : bool;
  skipped_any : bool;
  invalid_format : bool;
  had_failures : bool;
  display_text : string;
  history_text : string
}.

(** Local state of the loop over the calls. *)
Record ExecState := mk_state {
  st_cfg : Config;
  st_world : World;
  st_display : string;
  st_history : string;
  executed_count : nat;
  skipped_count : nat;
  seen_commands : nat;
  failed_commands : nat
}.

Definition push_line (st : ExecState) (line : string) : ExecState :=
  mk_state (st_cfg st) (st_world st) (st_display st ++ line) (st_history st ++ line)
    (executed_count st) (skipped_count st) (seen_commands st) (failed_commands st).

Definition push_skip (st : ExecState) (line : string) : ExecState :=
  mk_state (st_cfg st) (st_world st) (st_display st ++ line) (st_history st ++ line)
    (executed_count st) (S (skipped_count st)) (seen_commands st) (failed_commands st).

Definition stop_after_commands_line : string :=
  "Stopped auto exec after " ++ show_nat MAX_COMMANDS_PER_RESPONSE
  ++ " commands to avoid noisy output." ++ nl.

Definition stop_after_failures_line : string :=
  "Stopped auto exec after " ++ show_nat MAX_FAILED_COMMANDS_PER_RESPONSE
  ++ " failed commands." ++ nl.

Inductive Flow := Continue (st : ExecState) | Break (st : ExecState).

(** Running [cmd] and recording its output. *)
Definition run_and_record (env : Env) (cfg : Config) (cmd : string) (st : ExecState)
  : option Flow :=
  let w := st_world st in
  match run_shell env (List.length (runs w)) cmd with
  | None => None
  | Some out =>
      let w' := mk_world (runs w ++ [cmd])%list (asks w) in
      let disp := st_display st ++ "$ " ++ cmd ++ nl ++ out ++ nl in
      let hist := st_history st ++ "Executed: " ++ cmd ++ nl ++ "Output:" ++ nl ++ out ++ nl in
      let ex := S (executed_count st) in
      if looks_like_command_failure out then
        let fc := S (failed_commands st) in
        let st' := mk_state cfg w' disp hist ex (skipped_count st) (seen_commands st) fc in
        if MAX_FAILED_COMMANDS_PER_RESPONSE <=? fc
        then Some (Break (push_line st' stop_after_failures_line))
        else Some (Continue st')
      else
        Some (Continue (mk_state cfg w' disp hist ex (skipped_count st)
                          (seen_commands st) (failed_commands st)))
  end.

(** One iteration of [for call in calls]. *)
Definition exec_step (env : Env) (call : ToolCall) (st : ExecState) : option Flow :=
  if negb (String.eqb (lower (tool call)) "shell") then Some (Continue st) else
  let cmd := trim (command call) in
  if String.eqb cmd "" then Some (Continue st) else
  if MAX_COMMANDS_PER_RESPONSE <=? seen_commands st
  then Some (Break (push_line st stop_after_commands_line)) else
  let st := mk_state (st_cfg st) (st_world st) (st_display st) (st_history st)
              (executed_count st) (skipped_count st) (S (seen_commands st))
              (failed_commands st) in
  let cfg := st_cfg st in
  match precheck_command (file_exists env) cmd with
  | Some reason =>
      Some (Continue (push_skip st ("Skipped command: " ++ cmd ++ " (" ++ reason ++ ")" ++ nl)))
  | None =>
      if negb (is_command_allowed cfg cmd) then
        Some (Continue (push_skip st ("Skipped unsafe command: " ++ cmd ++ nl)))
      else if auto_confirm_exec cfg && negb (is_trusted_command cfg cmd) then
        let prefix := command_prefix cmd in
        let w := st_world st in
        match ask_user env (asks w) with
        | None => None
        | Some input =>
            let st := mk_state cfg (mk_world (runs w) (S (asks w))) (st_display st)
                        (st_history st) (executed_count st) (skipped_count st)
                        (seen_commands st) (failed_commands st) in
            let choice := lower (trim input) in
            if String.eqb choice "q" then
              Some (Break (push_line st ("User stopped command execution." ++ nl)))
            else if String.eqb choice "a" then
              let cfg' :=
                if existsb (eq_ignore_ascii_case prefix) (auto_exec_trusted cfg) then cfg
                else mk_config (auto_exec_mode cfg) (auto_exec_allow cfg) (auto_exec_deny cfg)
                       (auto_confirm_exec cfg) (auto_exec_trusted cfg ++ [prefix])%list
                       (history_max_messages cfg) (history_max_chars cfg) in
              run_and_record env cfg' cmd st
            else if negb (String.eqb choice "y") then
              Some (Continue (push_skip st ("Skipped by user: " ++ cmd ++ nl)))
            else run_and_record env cfg cmd st
        end
      else run_and_record env cfg cmd st
  end.

Fixpoint exec_loop (env : Env) (calls : list ToolCall) (st : ExecState) : option ExecState :=
  match calls with
  | [] => Some st
  | call :: rest =>
      match exec_step env call st with
      | None => None
      | Some (Continue st') => exec_loop env rest st'
      | Some (Break st') => Some st'
      end
  end.

Definition auto_exec_header : string := "tool[shell.auto_exec] output:" ++ nl.

Definition legacy_msg : string :=
  "Detected legacy shell block. Skipped: use JSON tool_calls instead." ++ nl.

Definition malformed_msg : string :=
  "Detected malformed or incomplete tool_calls JSON. Skipped; ask model to retry with valid JSON tool_calls." ++ nl.

Definition skipped_result (msg : string) : ExecResult :=
  mk_result false true true true false (nl ++ msg) (auto_exec_header ++ msg).

Definition empty_result : ExecResult := mk_result false false false false false "" "".

(** [maybe_execute_assistant_commands]: the new configuration (the
    "always" answer extends the trusted prefixes), the result and the
    environment log; [None] is the function's [Err]. *)
Definition maybe_execute_assistant_commands (env : Env) (cfg : Config) (w : World)
  (answer : string) : option (Config * ExecResult * World) :=
  match extract_tool_calls answer with
  | [] =>
      if contains_legacy_shell_block answer then Some (cfg, skipped_result legacy_msg, w)
      else if contains_tool_call_hint answer then Some (cfg, skipped_result malformed_msg, w)
      else Some (cfg, empty_result, w)
  | calls =>
      match exec_loop env calls (mk_state cfg w "" "" 0 0 0 0) with
      | None => None
      | Some st =>
          Some (st_cfg st,
                mk_result (0 <? executed_count st) true (0 <? skipped_count st) false
                  (0 <? failed_commands st) (nl ++ st_display st)
                  (auto_exec_header ++ st_history st),
                st_world st)
      end
  end.

End Exec.
Import Exec.

(* ------------------------------------------------------------------ *)
(** ** History compaction (HistoryCompactor) *)
Module Compact.

(** [llm::ChatMessage] *)
Record ChatMessage := mk_msg { role : string; content : string }.

Definition total_chars (history : list ChatMessage) : nat :=
  fold_right (fun m acc => chars_count (content m) + acc) 0 history.

(** [messages.iter().rev().take(n).rev()] *)
Definition last_n {A} (n : nat) (l : list A) : list A := skipn (List.length l - n) l.

Definition summary_line (m : ChatMessage) : string :=
  let r := if String.eqb (role m) "user" then "user" else "assistant" in
  let short := truncate_with_suffix (trim (content m)) 220 "..." in
  "- " ++ r ++ ": " ++ replace_nl short.

Definition summarize_history (messages : list ChatMessage) : string :=
  let lines := map summary_line (last_n 20 messages) in
  let out := "Compressed earlier context:" ++ nl ++ join nl lines in
  truncate_with_suffix out 4000 ("..." ++ nl ++ "[summary truncated]").

Definition summary_tag : string := "[session-summary]".

Definition maybe_compact_history (cfg : Config) (history : list ChatMessage)
  : list ChatMessage :=
  let max_messages := Nat.max (history_max_messages cfg) 4 in
  let max_chars := Nat.max (history_max_chars cfg) 2000 in
  let len := List.length history in
  if (len <=? max_messages) && (total_chars history <=? max_chars) then history
  else if len <? 8 then history
  else
    let tail_keep := Nat.min (Nat.max (max_messages / 2) 6) (len - 1) in
    let split_at := len - tail_keep in
    if split_at =? 0 then history
    else
      let older := firstn split_at history in
      mk_msg "assistant" (summary_tag ++ nl ++ summarize_history older)
        :: skipn split_at history.

End Compact.
Import Compact.

(* ------------------------------------------------------------------ *)
(** ** The agent loop ([run_agent_turn_with_system]) *)
Module Agent.

Definition clip_output (text : string) (max_len : nat) : string :=
  truncate_with_suffix text max_len ("..." ++ nl ++ "[truncated]").

Definition pick_verification_command (file_exists : string -> bool)
  : option (string * string) :=
  if file_exists "Cargo.toml" then Some ("rust", "cargo check")
  else if file_exists "pnpm-lock.yaml" && file_exists "tsconfig.json"
  then Some ("typescript", "pnpm -s tsc --noEmit")
  else if file_exists "package.json" && file_exists "tsconfig.json"
  then Some ("typescript", "npm exec -y tsc --noEmit")
  else if file_exists "pyproject.toml" || file_exists "pytest.ini"
  then Some ("python", "pytest -q")
  else None.

Definition run_auto_verification (env : Env) (w : World) : option (string * World) :=
  match pick_verification_command (file_exists env) with
  | None => Some ("verification: skipped (no supported project checker detected)", w)
  | Some (label, cmd) =>
      match run_shell env (List.length (runs w)) cmd with
      | None => None
      | Some out =>
          let status := if looks_like_command_failure out then "failed" else "ok" in
          Some ("verification[" ++ label ++ "] " ++ status ++ nl ++ "$ " ++ cmd ++ nl
                ++ clip_output out 5000,
                mk_world (runs w ++ [cmd])%list (asks w))
      end
  end.

Definition continue_prompt : string :=
  "Continue based on tool outputs above. If more execution is needed, emit JSON tool_calls. If complete, give final answer directly with short summary, changed files, and verification result.".

Definition recovery_hint_text : string :=
  nl ++ "Some commands failed. Prefer narrower retries: check file/path existence first, then rerun minimal commands.".

Definition invalid_format_prompt : string :=
  "Your last response had invalid tool_calls format. Use only a strict JSON code fence like ```json {"
  ++ dq ++ "tool_calls" ++ dq ++ ":[{" ++ dq ++ "tool" ++ dq ++ ":" ++ dq ++ "shell" ++ dq
  ++ "," ++ dq ++ "command" ++ dq ++ ":" ++ dq ++ "rg --files" ++ dq
  ++ "}]} ``` or provide a final answer with no tool_calls.".

Definition unsafe_retry_prompt : string :=
  "Your last response used unsupported execution format or unsafe commands. Use JSON tool_calls only, and only when needed. Otherwise provide direct final analysis/result.".

(** How a turn ends: the final answer, a transport error, the step limit,
    the "skipped because commands are unsafe or unsupported" message, or
    an [Err] propagated by [?]. *)
Inductive TurnEnd := FinalAnswer | TransportError | StepLimit | SkippedUnsupported | Failed.

Record TurnState := mk_turn {
  t_cfg : Config;
  t_history : list ChatMessage;
  t_world : World;
  steps : nat;
  unsafe_retries : nat;
  invalid_format_retries : nat;
  requests : nat
}.

(** The model: [call_llm_with_history_stream], queried with the number of
    requests made so far and the history sent; [None] is a transport
    error. *)
Definition Llm := nat -> list ChatMessage -> option string.

Definition user_msg (c : string) : ChatMessage := mk_msg "user" c.

(** The [loop] of [run_agent_turn_with_system].  Every iteration that
    continues raises [steps] (at most 3), [invalid_format_retries] (at most
    2) or [unsafe_retries] (at most 1), so 7 iterations end every turn;
    [None] is reported only when [fuel] runs out first. *)
Fixpoint agent_loop (fuel : nat) (env : Env) (llm : Llm) (st : TurnState)
  : option (TurnEnd * TurnState) :=
  match fuel with
  | 0 => None
  | S f =>
      let cfg := t_cfg st in
      let history := maybe_compact_history cfg (t_history st) in
      let st := mk_turn cfg history (t_world st) (steps st) (unsafe_retries st)
                  (invalid_format_retries st) (requests st) in
      match llm (requests st) history with
      | None => Some (TransportError, st)
      | Some answer =>
          let st := mk_turn cfg history (t_world st) (steps st) (unsafe_retries st)
                      (invalid_format_retries st) (S (requests st)) in
          match maybe_execute_assistant_commands env cfg (t_world st) answer with
          | None => Some (Failed, st)
          | Some (cfg, r, w) =>
              let history := (history ++ [mk_msg "assistant" answer])%list in
              let st := mk_turn cfg history w (steps st) (unsafe_retries st)
                          (invalid_format_retries st) (requests st) in
              if negb (had_blocks r) then Some (FinalAnswer, st)
              else if executed_any r then
                match run_auto_verification env w with
                | None => Some (Failed, st)
                | Some (verification, w) =>
                    let hint := if had_failures r then recovery_hint_text else "" in
                    let history := (history ++ [user_msg (history_text r ++ nl ++ verification
                                                   ++ hint ++ nl ++ continue_prompt)])%list in
                    let st := mk_turn cfg history w (S (steps st)) (unsafe_retries st)
                                (invalid_format_retries st) (requests st) in
                    if MAX_AUTO_TOOL_STEPS <=? steps st then Some (StepLimit, st)
                    else agent_loop f env llm st
                end
              else if invalid_format r && (invalid_format_retries st <? MAX_INVALID_FORMAT_RETRIES)
              then agent_loop f env llm
                     (mk_turn cfg (history ++ [user_msg invalid_format_prompt])%list w (steps st)
                        (unsafe_retries st) (S (invalid_format_retries st)) (requests st))
              else if skipped_any r && (unsafe_retries st <? 1)
              then agent_loop f env llm
                     (mk_turn cfg (history ++ [user_msg unsafe_retry_prompt])%list w (steps st)
                        (S (unsafe_retries st)) (invalid_format_retries st) (requests st))
              else Some (SkippedUnsupported, st)
          end
      end
  end.

Definition run_agent_turn_with_system (env : Env) (llm : Llm) (cfg : Config)
  (history : list ChatMessage) (w : World) : option (TurnEnd * TurnState) :=
  agent_loop 7 env llm (mk_turn cfg history w 0 0 0 0).

End Agent.
Import Agent.

(* ------------------------------------------------------------------ *)
(** ** JSON text, as a serializer writes it *)
Module Render.

(** Quotes and backslashes inside a string literal are escaped; every
    other byte is written as it is. *)
Fixpoint escape_json_str (s : string) : string :=
  match s with
  | EmptyString => EmptyString
  | String c r =>
      if Ascii.eqb c (ascii_of_nat 34) then String "\" (String c (escape_json_str r))
      else if Ascii.eqb c "\" then String "\" (String c (escape_json_str r))
      else String c (escape_json_str r)
  end.

Definition render_str (s : string) : string := dq ++ escape_json_str s ++ dq.

Fixpoint render (v : Value) : string :=
  match v with
  | Null => "null"
  | Bool true => "true"
  | Bool false => "false"
  | Number n => n
  | Str s => render_str s
  | Array items =>
      "[" ++ String.concat ","
               ((fix go (l : list Value) : list string :=
                   match l with
                   | [] => []
                   | x :: r => render x :: go r
                   end) items) ++ "]"
  | Object kvs =>
      "{" ++ String.concat ","
               ((fix go (l : list (string * Value)) : list string :=
                   match l with
                   | [] => []
                   | (k, x) :: r => (render_str k ++ ":" ++ render x) :: go r
                   end) kvs) ++ "}"
  end.

Fixpoint str_forall (p : ascii -> bool) (s : string) : bool :=
  match s with
  | EmptyString => true
  | String c r => p c && str_forall p r
  end.

(** Bytes that the brace scanner passes over outside string literals. *)
Definition plain_byte (c : ascii) : bool :=
  negb (Ascii.eqb c (ascii_of_nat 34)) && negb (Ascii.eqb c "{") && negb (Ascii.eqb c "}").

(** Number lexemes hold no quote and no brace (as the JSON grammar has it). *)
Fixpoint wf_value (v : Value) : bool :=
  match v with
  | Number n => str_forall plain_byte n
  | Array items =>
      (fix go (l : list Value) : bool :=
         match l with [] => true | x :: r => wf_value x && go r end)%list items
  | Object kvs =>
      (fix go (l : list (string * Value)) : bool :=
         match l with [] => true | (_, x) :: r => wf_value x && go r end)%list kvs
  | _ => true
  end.

End Render.
Import Render.

(* ------------------------------------------------------------------ *)
(** ** Command-line helpers of the chat loop *)
Module Cli.

(** [ChatExecutionMode] *)
Inductive ChatExecutionMode := ChatOnly | AgentAuto | AgentForce.

(** [ChatExecutionMode::as_str] *)
Definition mode_as_str (m : ChatExecutionMode) : string :=
  match m with
  | ChatOnly => "chat"
  | AgentAuto => "agent-auto"
  | AgentForce => "agent-force"
  end.

(** [ChatExecutionMode::parse] *)
Definition mode_parse (raw : string) : option ChatExecutionMode :=
  let s := lower (trim raw) in
  if String.eqb s "chat" || String.eqb s "chat-only" then Some ChatOnly
  else if String.eqb s "auto" || String.eqb s "agent-auto" then Some AgentAuto
  else if String.eqb s "agent" || String.eqb s "agent-force" then Some AgentForce
  else None.

(** The [while let Some(ch) = chars.next()] loop of
    [normalize_windows_shell_command].  The quotes and ['&'] are ASCII and
    never occur inside the encoding of another character, so the bytes of
    every other character are pushed one by one, unchanged. *)
Fixpoint normalize_go (in_single in_double : bool) (s : string) : string :=
  match s with
  | EmptyString => EmptyString
  | String ch r =>
      if Ascii.eqb ch "'" && negb in_double then
        String ch (normalize_go (negb in_single) in_double r)
      else if Ascii.eqb ch (ascii_of_nat 34) && negb in_single then
        String ch (normalize_go in_single (negb in_double) r)
      else if Ascii.eqb ch "&" && negb in_single && negb in_double then
        match r with
        | String nx r' =>
            if Ascii.eqb nx "&" then "; " ++ normalize_go in_single in_double r'
            else String ch (normalize_go in_single in_double r)
        | EmptyString => String ch (normalize_go in_single in_double r)
        end
      else String ch (normalize_go in_single in_double r)
  end.

(** [normalize_windows_shell_command] *)
Definition normalize_windows_shell_command (cmd : string) : string :=
  normalize_go false false cmd.

(** [str::trim_matches] with a byte predicate (the bytes of the start and
    the end that satisfy [p] are removed). *)
Fixpoint trim_start_by (p : ascii -> bool) (s : string) : string :=
  match s with
  | EmptyString => EmptyString
  | String c r => if p c then trim_start_by p r else s
  end.

Definition is_quote (c : ascii) : bool := Ascii.eqb c (ascii_of_nat 34) || Ascii.eqb c "'".

(** [trim_quotes] *)
Definition trim_quotes (s : string) : string :=
  rev_str (trim_start_by is_quote (rev_str (trim_start_by is_quote s))).

(** [str::strip_prefix] *)
Definition strip_prefix (s p : string) : option string :=
  if String.prefix p s then Some (drop (String.length p) s) else None.

(** The [for token in cmd.split_whitespace()] loop of [parse_flag_value]. *)
Fixpoint flag_value_go (toks : list string) (prefix : string) : option string :=
  match toks with
  | [] => None
  | token :: rest =>
      match strip_prefix token prefix with
      | Some v => Some (trim_quotes v)
      | None => flag_value_go rest prefix
      end
  end.

(** [parse_flag_value] *)
Definition parse_flag_value (cmd prefix : string) : option string :=
  flag_value_go (split_whitespace cmd) prefix.

(** [parse_name_glob] *)
Definition parse_name_glob (cmd : string) : option string :=
  match find cmd "-name" with
  | None => None
  | Some idx =>
      match split_whitespace (trim (drop (idx + String.length "-name") cmd)) with
      | tok :: _ => Some (trim_quotes tok)
      | [] => None
      end
  end.

(** [str::lines]: the text is split after every ['\n']; a line loses its
    ['\n'] and then a ['\r'] before it; a last line without ['\n'] is kept
    as it is, and a final ['\n'] opens no further line.  [cur] holds the
    current line, reversed. *)
Fixpoint lines_go (s cur : string) : list string :=
  match s with
  | EmptyString => if String.eqb cur "" then [] else [rev_str cur]
  | String c r =>
      if Ascii.eqb c (ascii_of_nat 10) then
        (match cur with
         | String d cur' => if Ascii.eqb d (ascii_of_nat 13) then rev_str cur' else rev_str cur
         | EmptyString => EmptyString
         end) :: lines_go r ""
      else lines_go r (String c cur)
  end.

Definition lines (s : string) : list string := lines_go s "".

(** [limit_lines] *)
Definition limit_lines (s : string) (n : nat) : string := join nl (firstn n (lines s)).

(** The bytes of the character that starts [s] after its first byte (its
    UTF-8 continuation bytes). *)
Fixpoint continuation (s : string) : string :=
  match s with
  | String c r => if is_char_start c then EmptyString else String c (continuation r)
  | EmptyString => EmptyString
  end.

(** [s.chars().nth(k)], as the bytes of the character. *)
Fixpoint nth_char (k : nat) (s : string) : option string :=
  match s with
  | EmptyString => None
  | String c r =>
      if is_char_start c then
        match k with
        | 0 => Some (String c (continuation r))
        | S k' => nth_char k' r
        end
      else nth_char k r
  end.

(** [extract_quoted] *)
Definition extract_quoted (input : string) : option string :=
  let start := match find input dq with
               | Some i => Some i
               | None => find input "'"
               end in
  match start with
  | None => None
  | Some start =>
      match nth_char start input with
      | None => None
      | Some quote =>
          let rest := drop (start + 1) input in
          match find rest quote with
          | None => None
          | Some end_rel => Some (take end_rel rest)
          end
      end
  end.

(** [char::is_ascii_alphanumeric] on a byte. *)
Definition is_ascii_alnum (c : ascii) : bool :=
  let n := nat_of_ascii c in
  ((48 <=? n) && (n <=? 57)) || ((65 <=? n) && (n <=? 90)) || ((97 <=? n) && (n <=? 122)).

Definition session_byte (c : ascii) : bool :=
  is_ascii_alnum c || Ascii.eqb c "-" || Ascii.eqb c "_".

(** The [chars().map(..).collect()] of [sanitize_session_name]: an ASCII
    letter or digit, ['-'] and ['_'] are kept; any other character becomes
    ['_'], through its first byte, its continuation bytes being dropped. *)
Fixpoint sanitize_chars (s : string) : string :=
  match s with
  | EmptyString => EmptyString
  | String c r =>
      if session_byte c then String c (sanitize_chars r)
      else if is_char_start c then String "_" (sanitize_chars r)
      else sanitize_chars r
  end.

(** [sanitize_session_name] *)
Definition sanitize_session_name (name : string) : string :=
  let s := sanitize_chars name in
  if String.eqb s "" then "session" else s.

End Cli.
Import Cli.

(* ================================================================== *)
(** * Concrete inputs *)

Definition deny_cfg : Config := mk_config Custom ["rm"] ["  RM -rf "] false [] 40 12000.

(** The object [{"command":"echo \"hi\""}]. *)
Definition echo_obj : Value := Object [("command", Str ("echo " ++ dq ++ "hi" ++ dq))].

(** Replies of the model, built from JSON text. *)
Definition call_obj (t c : string) : string :=
  "{" ++ dq ++ "tool" ++ dq ++ ":" ++ dq ++ t ++ dq ++ "," ++ dq ++ "command" ++ dq
  ++ ":" ++ dq ++ c ++ dq ++ "}".

Definition json_array (items : list string) : string := "[" ++ join "," items ++ "]".

Definition tool_calls_obj (items : list string) : string :=
  "{" ++ dq ++ "tool_calls" ++ dq ++ ":" ++ json_array items ++ "}".

Definition json_fence (payload : string) : string :=
  "```json" ++ nl ++ payload ++ nl ++ "```".

Definition env0 : Env := mk_env (fun _ => false) (fun _ _ => Some "ok") (fun _ => Some "y").

Definition cfg0 : Config := mk_config All [] [] false [] 40 12000.

(** A user who answers "always" to every confirmation prompt. *)
Definition env_always : Env := mk_env (fun _ => false) (fun _ _ => Some "ok") (fun _ => Some "a").

(** Confirmation on, nothing trusted yet. *)
Definition cfg_confirm : Config := mk_config All [] [] true [] 40 12000.

Definition world0 : World := mk_world [] 0.

Definition turn0 : TurnState := mk_turn cfg0 [] world0 0 0 0 0.

Definition python_reply : string := json_fence (json_array [call_obj "python" "ls"]).

Definition shell_reply : string := json_fence (json_array [call_obj "shell" "ls"]).

(** A reply the extractor finds no call in, but that looks like a call. *)
Definition malformed_reply (a : string) : Prop :=
  extract_tool_calls a = [] /\
  (contains_legacy_shell_block a || contains_tool_call_hint a) = true.

Definition bad_reply : string := "```json {oops".

(** A [```json] fence around [payload], with [pre] before it and [post] after it
    inside the fence. *)
Definition json_fence_padded (pre payload post : string) : string :=
  "```json" ++ pre ++ payload ++ post ++ "```".

(** The value of [call_obj t c]. *)
Definition call_value (t c : string) : Value := Object [("tool", Str t); ("command", Str c)].

Definition wrapped_payload : string := tool_calls_obj [call_obj "shell" "ls"].

Definition array_payload : string := json_array [call_obj "shell" "ls"; call_obj "shell" "pwd"].

(** The command a call runs, and its trace in the display and history text. *)
Definition cmd_of (c : ToolCall) : string := trim (command c).

Definition cat (l : list string) : string := fold_right String.append "" l.

Definition shown (cmd out : string) : string := "$ " ++ cmd ++ nl ++ out ++ nl.

Definition logged (cmd out : string) : string :=
  "Executed: " ++ cmd ++ nl ++ "Output:" ++ nl ++ out ++ nl.

Definition fail_count (outs : list string) : nat :=
  List.length (filter looks_like_command_failure outs).

Definition shell_call (c : ToolCall) : bool :=
  String.eqb (lower (tool c)) "shell" && negb (String.eqb (cmd_of c) "").

(** A shell call that passes the precheck and the policy. *)
Definition runnable (env : Env) (cfg : Config) (c : ToolCall) : bool :=
  shell_call c
  && match precheck_command (file_exists env) (cmd_of c) with None => true | Some _ => false end
  && is_command_allowed cfg (cmd_of c).

Definition nine_ls : string := json_fence (json_array (repeat (call_obj "shell" "ls") 9)).

(** A shell whose every output reads as a failure. *)
Definition env_missing : Env :=
  mk_env (fun _ => false) (fun _ _ => Some "ls: cannot access 'x': No such file or directory")
    (fun _ => Some "y").

(** What [collect_tool_calls_from_fence] appends for one block. *)
Definition block_calls (block : string) (out : list ToolCall) : list ToolCall :=
  if negb (String.eqb block "") then
    match from_str block with
    | Some value => (out ++ collect_tool_calls_from_value value)%list
    | None => out
    end
  else out.

(** A history whose retained tail alone exceeds the character ceiling. *)
Fixpoint rep (n : nat) (c : ascii) : string :=
  match n with 0 => EmptyString | S k => String c (rep k c) end.

Definition cfg14 : Config := mk_config All [] [] false [] 14 2000.

Definition heavy_history : list ChatMessage := repeat (mk_msg "user" (rep 300 "a")) 20.

Definition light_history : list ChatMessage := repeat (mk_msg "user" "hello") 20.

(* ================================================================== *)
(** * Auxiliary notions *)

(** Induction on JSON values, through the lists they hold. *)
Section ValueInd.
Variable P : Value -> Prop.
Hypothesis H_null : P Null.
Hypothesis H_bool : forall b, P (Bool b).
Hypothesis H_number : forall n, P (Number n).
Hypothesis H_str : forall s, P (Str s).
Hypothesis H_array : forall l, Forall P l -> P (Array l).
Hypothesis H_object : forall kvs, Forall (fun kv => P (snd kv)) kvs -> P (Object kvs).

Fixpoint value_ind' (v : Value) : P v :=
  match v with
  | Null => H_null
  | Bool b => H_bool b
  | Number n => H_number n
  | Str s => H_str s
  | Array l =>
      H_array l ((fix go (l : list Value) : Forall P l :=
                    match l with
                    | [] => Forall_nil _
                    | x :: r => Forall_cons x (value_ind' x) (go r)
                    end) l)
  | Object kvs =>
      H_object kvs ((fix go (l : list (string * Value)) : Forall (fun kv => P (snd kv)) l :=
                       match l with
                       | [] => Forall_nil _
                       | (k, x) :: r => Forall_cons (k, x) (value_ind' x) (go r)
                       end) kvs)
  end.
End ValueInd.

(** The calls found under each key of an object. *)
Definition entries_calls (kvs : list (string * Value)) : list (string * list ToolCall) :=
  map (fun kv => (fst kv, collect_tool_calls_from_value (snd kv))) kvs.

(** A call whose tool and command are both non-blank. *)
Definition nonblank_call (c : ToolCall) : Prop :=
  trim (tool c) <> "" /\ trim (command c) <> "".

(** The key the inline pass looks for. *)
Definition quoted_tool_calls : string := dq ++ "tool_calls" ++ dq.

(** One [key:value] member of a rendered object. *)
Definition render_member (kv : string * Value) : string :=
  (render_str (fst kv) ++ ":" ++ render (snd kv))%string.

(** Scanning a piece that returns to the same depth, outside strings. *)
Definition scans_through (d : nat) (x : string) : Prop :=
  forall rest i, brace_scan (x ++ rest) i (S d) false false
                 = brace_scan rest (i + String.length x) (S d) false false.

(** The state a step of [exec_calls] ends in, continuing or not. *)
Definition flow_state (fl : Flow) : ExecState :=
  match fl with Continue s => s | Break s => s end.

(** A command that passes [precheck_command] and [is_command_allowed]. *)
Definition vetted (env : Env) (cfg : Config) (c : string) : Prop :=
  precheck_command (file_exists env) c = None /\ is_command_allowed cfg c = true.

(** [c2] is [c1] with commands appended to its trusted list. *)
Definition trusted_ext (c1 c2 : Config) : Prop :=
  exists ext, c2 = mk_config (auto_exec_mode c1) (auto_exec_allow c1) (auto_exec_deny c1)
                  (auto_confirm_exec c1) (auto_exec_trusted c1 ++ ext)%list
                  (history_max_messages c1) (history_max_chars c1).

(** The commands [pick_verification_command] can choose. *)
Definition verification_commands : list string :=
  ["cargo check"; "pnpm -s tsc --noEmit"; "npm exec -y tsc --noEmit"; "pytest -q"].

(** The number of occurrences of a byte in a string. *)
Fixpoint count_byte (b : ascii) (s : string) : nat :=
  match s with
  | EmptyString => 0
  | String c r => (if Ascii.eqb c b then 1 else 0) + count_byte b r
  end.

(* ================================================================== *)
(** * Properties *)

(** ** Command safety *)

(** C3: an entry of the deny-list that, trimmed and lower-cased, is
    non-empty and a prefix of the lower-cased command denies the command,
    whatever the mode and the allow-list. *)
Theorem deny_list_wins :
  forall (cfg : Config) (cmd entry : string),
    In entry (auto_exec_deny cfg) ->
    lower (trim entry) <> "" ->
    starts_with (lower cmd) (lower (trim entry)) = true ->
    is_command_allowed cfg cmd = false.
Proof.
  intros cfg cmd entry Hin Hne Hpre.
  unfold is_command_allowed.
  assert (Hm : matches_list (auto_exec_deny cfg) cmd = true).
  { unfold matches_list. apply existsb_exists. exists entry. split; [exact Hin|].
    rewrite Hpre, andb_true_r. apply negb_true_iff, String.eqb_neq. exact Hne. }
  now rewrite Hm.
Qed.

Lemma deny_list_wins_witness :
  In "  RM -rf " (auto_exec_deny deny_cfg) /\ lower (trim "  RM -rf ") <> ""
  /\ starts_with (lower "rm -RF /") (lower (trim "  RM -rf ")) = true
  /\ is_command_allowed deny_cfg "rm -RF /" = false.
Proof.
  split; [simpl; auto|]. split; [vm_compute; discriminate|].
  split; [vm_compute; reflexivity|].
  apply (deny_list_wins deny_cfg "rm -RF /" "  RM -rf ").
  - simpl; auto.
  - vm_compute; discriminate.
  - vm_compute; reflexivity.
Defined.
(** ** Execution pass and agent loop on non-shell tool calls *)

Lemma exec_loop_non_shell :
  forall env calls st,
    Forall (fun c => lower (tool c) <> "shell") calls ->
    exec_loop env calls st = Some st.
Proof.
  intros env calls st H; induction H as [|c rest Hc _ IH]; [reflexivity|].
  simpl. unfold exec_step.
  destruct (String.eqb_spec (lower (tool c)) "shell") as [E|_]; [contradiction|].
  exact IH.
Qed.

Lemma exec_non_shell_result :
  forall env cfg w answer,
    extract_tool_calls answer <> [] ->
    Forall (fun c => lower (tool c) <> "shell") (extract_tool_calls answer) ->
    maybe_execute_assistant_commands env cfg w answer
    = Some (cfg, mk_result false true false false false (nl ++ "") (auto_exec_header ++ ""), w).
Proof.
  intros env cfg w answer Hne Hall.
  unfold maybe_execute_assistant_commands.
  destruct (extract_tool_calls answer) as [|c rest] eqn:E; [congruence|].
  rewrite (exec_loop_non_shell env (c :: rest) _ Hall). reflexivity.
Qed.

(** C10: when every extracted call names a tool other than [shell], the
    pass reports [had_blocks] only (nothing executed, skipped or
    malformed), and the loop iteration that receives such a reply ends the
    turn with the skip message, leaving [unsafe_retries] unconsumed. *)
Theorem non_shell_calls_end_turn :
  forall (fuel : nat) (env : Env) (llm : Llm) (st : TurnState) (answer : string),
    llm (requests st) (maybe_compact_history (t_cfg st) (t_history st)) = Some answer ->
    extract_tool_calls answer <> [] ->
    Forall (fun c => lower (tool c) <> "shell") (extract_tool_calls answer) ->
    (exists r, maybe_execute_assistant_commands env (t_cfg st) (t_world st) answer
               = Some (t_cfg st, r, t_world st)
     /\ had_blocks r = true /\ executed_any r = false /\ skipped_any r = false
     /\ invalid_format r = false)
    /\ agent_loop (S fuel) env llm st
       = Some (SkippedUnsupported,
               mk_turn (t_cfg st)
                 (maybe_compact_history (t_cfg st) (t_history st) ++ [mk_msg "assistant" answer])%list
                 (t_world st) (steps st) (unsafe_retries st) (invalid_format_retries st)
                 (S (requests st))).
Proof.
  intros fuel env llm st answer Hllm Hne Hall.
  pose proof (exec_non_shell_result env (t_cfg st) (t_world st) answer Hne Hall) as Hx.
  split.
  - eexists; split; [exact Hx|]. repeat split.
  - simpl. rewrite Hllm, Hx. reflexivity.
Qed.

Lemma non_shell_calls_end_turn_witness :
  extract_tool_calls python_reply <> []
  /\ Forall (fun c => lower (tool c) <> "shell") (extract_tool_calls python_reply)
  /\ agent_loop 1 env0 (fun _ _ => Some python_reply) turn0
     = Some (SkippedUnsupported,
             mk_turn cfg0 (maybe_compact_history cfg0 [] ++ [mk_msg "assistant" python_reply])%list
               world0 0 0 0 1).
Proof.
  assert (H1 : extract_tool_calls python_reply <> []) by (vm_compute; discriminate).
  assert (H2 : Forall (fun c => lower (tool c) <> "shell") (extract_tool_calls python_reply)).
  { vm_compute. repeat constructor. intro H; vm_compute in H; discriminate H. }
  split; [exact H1|]. split; [exact H2|].
  exact (proj2 (non_shell_calls_end_turn 0 env0 (fun _ _ => Some python_reply) turn0
                  python_reply eq_refl H1 H2)).
Defined.


(** ** Facts about the [str] model *)
Module StrFacts.

Lemma sapp_assoc : forall a b c : string, ((a ++ b) ++ c = a ++ (b ++ c))%string.
Proof. induction a as [|x a IH]; intros; simpl; [reflexivity|now rewrite IH]. Qed.

Lemma sapp_nil_r : forall a : string, (a ++ "")%string = a.
Proof. induction a as [|x a IH]; simpl; [reflexivity|now rewrite IH]. Qed.

Lemma slen_app : forall a b : string, String.length (a ++ b) = String.length a + String.length b.
Proof. induction a as [|x a IH]; intros; simpl; [reflexivity|now rewrite IH]. Qed.

Lemma prefix_app_iff : forall p s, String.prefix p s = true <-> exists b, s = (p ++ b)%string.
Proof.
  induction p as [|x p IH]; intros s.
  - split; [intros _; now exists s | intros _; destruct s; reflexivity].
  - destruct s as [|y s]; simpl.
    + split; [discriminate | intros [b Hb]; discriminate].
    + destruct (ascii_dec x y) as [<-|Hxy].
      * rewrite IH. split; intros [b Hb]; exists b; [now rewrite Hb | now injection Hb].
      * split; [discriminate | intros [b Hb]; injection Hb; intros; congruence].
Qed.

Lemma find_eq : forall s p,
  find s p = if String.prefix p s then Some 0 else
             match s with
             | EmptyString => None
             | String _ r => option_map S (find r p)
             end.
Proof. intros [|c s] p; reflexivity. Qed.

Lemma find_some_split : forall s p n,
  find s p = Some n -> exists a b, s = (a ++ p ++ b)%string /\ String.length a = n.
Proof.
  induction s as [|c s IH]; intros p n H; rewrite find_eq in H.
  - destruct (String.prefix p "") eqn:Ep; [|discriminate].
    injection H as <-. apply prefix_app_iff in Ep as [b Hb].
    exists "", b. split; [exact Hb|reflexivity].
  - destruct (String.prefix p (String c s)) eqn:Ep.
    + injection H as <-. apply prefix_app_iff in Ep as [b Hb].
      exists "", b. split; [exact Hb|reflexivity].
    + destruct (find s p) as [m|] eqn:Em; [|discriminate].
      injection H as <-. destruct (IH p m Em) as (a & b & -> & Ha).
      exists (String c a), b. split; [reflexivity|simpl; now rewrite Ha].
Qed.

Lemma find_app_some : forall a p b, exists n, find (a ++ p ++ b) p = Some n.
Proof.
  induction a as [|c a IH]; intros p b; rewrite find_eq.
  - assert (Hp : String.prefix p ("" ++ p ++ b) = true)
      by (apply prefix_app_iff; now exists b).
    rewrite Hp. now exists 0.
  - destruct (String.prefix p (String c a ++ p ++ b)); [now exists 0|].
    destruct (IH p b) as [n Hn]. simpl. rewrite Hn. now exists (S n).
Qed.

Lemma contains_iff : forall s p,
  contains s p = true <-> exists a b, s = (a ++ p ++ b)%string.
Proof.
  intros s p. unfold contains. split.
  - destruct (find s p) as [n|] eqn:E; [|discriminate].
    intros _. destruct (find_some_split s p n E) as (a & b & Hs & _). now exists a, b.
  - intros (a & b & ->). destruct (find_app_some a p b) as [n Hn]. now rewrite Hn.
Qed.

Lemma lower_app : forall a b, lower (a ++ b) = (lower a ++ lower b)%string.
Proof. induction a as [|x a IH]; intros; simpl; [reflexivity|now rewrite IH]. Qed.

Lemma contains_lower : forall s p,
  contains s p = true -> contains (lower s) (lower p) = true.
Proof.
  intros s p H. apply contains_iff in H as (a & b & ->).
  apply contains_iff. exists (lower a), (lower b). now rewrite !lower_app.
Qed.

Lemma contains_trans : forall s p q,
  contains s p = true -> contains p q = true -> contains s q = true.
Proof.
  intros s p q H1 H2. apply contains_iff in H1 as (a & b & ->).
  apply contains_iff in H2 as (c & d & ->). apply contains_iff.
  exists (a ++ c)%string, (d ++ b)%string. now rewrite !sapp_assoc.
Qed.

Lemma drop_suffix : forall i s, exists a, s = (a ++ drop i s)%string.
Proof.
  induction i as [|i IH]; intros s; [now exists ""|].
  destruct s as [|c s]; [now exists ""|].
  destruct (IH s) as [a Ha]. exists (String c a). simpl. now rewrite <- Ha.
Qed.

Lemma take_prefix : forall n s, exists b, s = (take n s ++ b)%string.
Proof.
  induction n as [|n IH]; intros s; [now exists s|].
  destruct s as [|c s]; [now exists ""|].
  destruct (IH s) as [b Hb]. exists b. simpl. now rewrite <- Hb.
Qed.

Lemma contains_drop : forall i s p, contains (drop i s) p = true -> contains s p = true.
Proof.
  intros i s p H. destruct (drop_suffix i s) as [a Ha].
  apply contains_iff in H as (c & d & Hd). apply contains_iff.
  exists (a ++ c)%string, d. rewrite Ha, Hd. now rewrite sapp_assoc.
Qed.

Lemma contains_take : forall n s p, contains (take n s) p = true -> contains s p = true.
Proof.
  intros n s p H. destruct (take_prefix n s) as [b Hb].
  apply contains_iff in H as (c & d & Hd). apply contains_iff.
  exists c, (d ++ b)%string. rewrite Hb, Hd. now rewrite !sapp_assoc.
Qed.

Lemma find_drop_contains : forall i s p n,
  find (drop i s) p = Some n -> contains s p = true.
Proof.
  intros i s p n H. apply (contains_drop i). unfold contains. now rewrite H.
Qed.

End StrFacts.
Import StrFacts.

(** ** Extraction: what reaches the output *)


Lemma collect_array : forall l,
  collect_tool_calls_from_value (Array l) = flat_map collect_tool_calls_from_value l.
Proof.
  induction l as [|x l IH]; [reflexivity|].
  simpl. rewrite <- IH. reflexivity.
Qed.

Lemma collect_object : forall kvs,
  collect_tool_calls_from_value (Object kvs) =
  match obj_get "tool_calls" (entries_calls kvs) with
  | Some calls => calls
  | None =>
      let t := string_field kvs "tool" "type" in
      let c := string_field kvs "command" "cmd" in
      if negb (String.eqb (trim t) "") && negb (String.eqb (trim c) "")
      then [mk_call t c] else []
  end.
Proof.
  intros kvs. simpl.
  assert (E : (fix entries_calls (l : list (string * Value)) : list (string * list ToolCall) :=
                 match l with
                 | [] => []
                 | (k, x) :: r => (k, collect_tool_calls_from_value x) :: entries_calls r
                 end) kvs = entries_calls kvs).
  { induction kvs as [|[k x] r IH]; [reflexivity|]. simpl. now rewrite IH. }
  now rewrite E.
Qed.

Lemma find_map_comm : forall {A B} (f : A -> B) (p : B -> bool) (l : list A),
  List.find p (map f l) = option_map f (List.find (fun a => p (f a)) l).
Proof.
  induction l as [|a l IH]; [reflexivity|]. simpl. destruct (p (f a)); [reflexivity|exact IH].
Qed.

Lemma obj_get_entries_calls : forall k kvs,
  obj_get k (entries_calls kvs) = option_map collect_tool_calls_from_value (obj_get k kvs).
Proof.
  intros k kvs. unfold obj_get, entries_calls. rewrite <- map_rev, find_map_comm. simpl.
  destruct (List.find (fun a => String.eqb (fst a) k) (rev kvs)) as [[k' v]|]; reflexivity.
Qed.

Lemma obj_get_in : forall {A} k (kvs : list (string * A)) v,
  obj_get k kvs = Some v -> In (k, v) kvs.
Proof.
  intros A k kvs v H. unfold obj_get in H.
  destruct (List.find (fun kv => String.eqb (fst kv) k) (rev kvs)) as [[k' v']|] eqn:E;
    [|discriminate].
  injection H as ->. apply find_some in E as [Hin Hk]. simpl in Hk.
  apply String.eqb_eq in Hk as ->. now apply in_rev.
Qed.

Lemma collect_nonblank : forall v, Forall nonblank_call (collect_tool_calls_from_value v).
Proof.
  apply value_ind'; try (intros; constructor).
  - intros l Hl. rewrite collect_array. apply Forall_forall. intros c Hc.
    apply in_flat_map in Hc as (x & Hx & Hc).
    rewrite Forall_forall in Hl. specialize (Hl x Hx). rewrite Forall_forall in Hl. auto.
  - intros kvs Hkvs. rewrite collect_object, obj_get_entries_calls.
    destruct (obj_get "tool_calls" kvs) as [v|] eqn:Eg; simpl.
    + apply obj_get_in in Eg. rewrite Forall_forall in Hkvs. exact (Hkvs _ Eg).
    + destruct (String.eqb_spec (trim (string_field kvs "tool" "type")) "") as [|Ht];
        [constructor|].
      destruct (String.eqb_spec (trim (string_field kvs "command" "cmd")) "") as [|Hc];
        [constructor|].
      simpl. constructor; [split; assumption|constructor].
Qed.

Lemma fence_loop_nonblank : forall fuel text open close skip i out,
  Forall nonblank_call out ->
  Forall nonblank_call (fence_loop fuel text open close skip i out).
Proof.
  induction fuel as [|f IH]; intros text open close skip i out Hout; simpl; [exact Hout|].
  destruct (i <? String.length text); [|exact Hout].
  destruct (find (drop i text) open) as [pos|]; [|exact Hout].
  destruct (_ && _); [now apply IH|].
  destruct (String.length text <=? _); [exact Hout|].
  destruct (find _ close) as [e|]; [|exact Hout].
  apply IH. destruct (negb _); [|exact Hout].
  destruct (from_str _) as [v|]; [|exact Hout].
  apply Forall_app; split; [exact Hout|apply collect_nonblank].
Qed.

Lemma inline_loop_nonblank : forall fuel text i out,
  Forall nonblank_call out -> Forall nonblank_call (inline_loop fuel text i out).
Proof.
  induction fuel as [|f IH]; intros text i out Hout; simpl; [exact Hout|].
  destruct (byte_at text i) as [b|]; [|exact Hout].
  destruct (negb _); [now apply IH|].
  destruct (find_matching_brace text i) as [e|]; [|now apply IH].
  destruct (contains _ _); [|now apply IH].
  destruct (from_str _) as [v|]; [|now apply IH].
  apply IH, Forall_app; split; [exact Hout|apply collect_nonblank].
Qed.

(** C9: every call [extract_tool_calls] returns has a tool and a command
    that are non-blank after trimming; an object without a [tool_calls]
    key whose [tool] and [type] entries are both missing or blank
    strings, or whose [command] and [cmd] entries are, yields no call. *)
Theorem extracted_calls_nonblank :
  (forall (text : string) (c : ToolCall),
      In c (extract_tool_calls text) -> trim (tool c) <> "" /\ trim (command c) <> "")
  /\ (forall kvs : list (string * Value),
        obj_get "tool_calls" kvs = None ->
        ((forall k s, (k = "tool" \/ k = "type") -> obj_get k kvs = Some (Str s) -> trim s = "")
         \/ (forall k s, (k = "command" \/ k = "cmd") -> obj_get k kvs = Some (Str s) -> trim s = "")) ->
        collect_tool_calls_from_value (Object kvs) = []).
Proof.
  split.
  - intros text c Hc.
    assert (H : Forall nonblank_call (extract_tool_calls text)).
    { unfold extract_tool_calls, collect_tool_calls_from_inline_json, collect_tool_calls_from_fence.
      apply inline_loop_nonblank, fence_loop_nonblank, fence_loop_nonblank. constructor. }
    rewrite Forall_forall in H. exact (H c Hc).
  - intros kvs Hnone Hblank.
    assert (Hfield : forall k1 k2,
               (forall k s, (k = k1 \/ k = k2) -> obj_get k kvs = Some (Str s) -> trim s = "") ->
               trim (string_field kvs k1 k2) = "").
    { intros k1 k2 Hk. unfold string_field.
      destruct (obj_get k1 kvs) as [v|] eqn:E1.
      - destruct v; simpl; try reflexivity. now apply (Hk k1); [left|].
      - destruct (obj_get k2 kvs) as [v|] eqn:E2; [|reflexivity].
        destruct v; simpl; try reflexivity. now apply (Hk k2); [right|]. }
    rewrite collect_object, obj_get_entries_calls, Hnone. simpl.
    destruct Hblank as [Ht|Hc].
    + now rewrite (Hfield _ _ Ht).
    + rewrite (Hfield _ _ Hc). simpl. now rewrite andb_false_r.
Qed.

Lemma extracted_calls_nonblank_witness :
  (In (mk_call "shell" "ls") (extract_tool_calls shell_reply)
   /\ trim "shell" <> "" /\ trim "ls" <> "")
  /\ collect_tool_calls_from_value (Object [("tool", Str "  "); ("command", Str "ls")]) = [].
Proof.
  split.
  - assert (H : In (mk_call "shell" "ls") (extract_tool_calls shell_reply))
      by (vm_compute; left; reflexivity).
    split; [exact H|]. exact (proj1 extracted_calls_nonblank _ _ H).
  - apply (proj2 extracted_calls_nonblank); [reflexivity|].
    left. intros k s [-> | ->] E; vm_compute in E; [injection E as <-; reflexivity|discriminate].
Defined.

Lemma fence_loop_absent : forall fuel text open close skip i out,
  contains text open = false -> fence_loop fuel text open close skip i out = out.
Proof.
  destruct fuel as [|f]; intros text open close skip i out H; simpl; [reflexivity|].
  destruct (i <? String.length text); [|reflexivity].
  destruct (find (drop i text) open) as [pos|] eqn:E; [|reflexivity].
  apply find_drop_contains in E. congruence.
Qed.

Lemma inline_loop_absent : forall fuel text i out,
  contains text quoted_tool_calls = false -> inline_loop fuel text i out = out.
Proof.
  induction fuel as [|f IH]; intros text i out H; simpl; [reflexivity|].
  destruct (byte_at text i) as [b|]; [|reflexivity].
  destruct (negb _); [now apply IH|].
  destruct (find_matching_brace text i) as [e|]; [|now apply IH].
  match goal with |- context [contains ?c ?q] => destruct (contains c q) eqn:Ec end;
    [|now apply IH].
  exfalso. apply contains_take, contains_drop in Ec.
  change (contains text quoted_tool_calls = true) in Ec. congruence.
Qed.

Lemma not_contains_of_lower : forall text p,
  lower p = p -> contains (lower text) p = false -> contains text p = false.
Proof.
  intros text p Hp H. destruct (contains text p) eqn:E; [|reflexivity].
  apply contains_lower in E. rewrite Hp in E. congruence.
Qed.

(** C8: a reply with no legacy shell fence and none of the hint
    substrings [tool_calls], ["tool"], [```json], [``json] (in any case)
    yields no tool call, and the pass returns with every flag false and
    empty texts. *)
Theorem no_marker_no_blocks :
  forall (env : Env) (cfg : Config) (w : World) (text : string),
    contains_legacy_shell_block text = false ->
    contains_tool_call_hint text = false ->
    extract_tool_calls text = []
    /\ maybe_execute_assistant_commands env cfg w text
       = Some (cfg, mk_result false false false false false "" "", w).
Proof.
  intros env cfg w text Hleg Hhint.
  unfold contains_tool_call_hint in Hhint.
  apply orb_false_iff in Hhint as [Hh Hjson2].
  apply orb_false_iff in Hh as [Hh Hjson3].
  apply orb_false_iff in Hh as [Htc Hquote].
  assert (Hq : contains text quoted_tool_calls = false).
  { destruct (contains text quoted_tool_calls) eqn:E; [|reflexivity].
    apply contains_lower in E.
    assert (E' : contains (lower text) "tool_calls" = true)
      by (apply (contains_trans _ _ _ E); reflexivity).
    congruence. }
  assert (Hx : extract_tool_calls text = []).
  { unfold extract_tool_calls, collect_tool_calls_from_fence, collect_tool_calls_from_inline_json.
    rewrite fence_loop_absent by (apply not_contains_of_lower; [reflexivity|assumption]).
    rewrite fence_loop_absent by (apply not_contains_of_lower; [reflexivity|assumption]).
    now apply inline_loop_absent. }
  split; [exact Hx|].
  unfold maybe_execute_assistant_commands. rewrite Hx, Hleg.
  unfold contains_tool_call_hint. now rewrite Htc, Hquote, Hjson3, Hjson2.
Qed.

Lemma no_marker_no_blocks_witness :
  contains_legacy_shell_block "Done: the Tool ran {ok}." = false
  /\ contains_tool_call_hint "Done: the Tool ran {ok}." = false
  /\ extract_tool_calls "Done: the Tool ran {ok}." = []
  /\ maybe_execute_assistant_commands env0 cfg0 world0 "Done: the Tool ran {ok}."
     = Some (cfg0, mk_result false false false false false "" "", world0).
Proof.
  assert (H1 : contains_legacy_shell_block "Done: the Tool ran {ok}." = false)
    by (vm_compute; reflexivity).
  assert (H2 : contains_tool_call_hint "Done: the Tool ran {ok}." = false)
    by (vm_compute; reflexivity).
  split; [exact H1|]. split; [exact H2|].
  exact (no_marker_no_blocks env0 cfg0 world0 _ H1 H2).
Defined.

(** ** History compaction *)

Lemma compact_unchanged : forall cfg h,
  ((List.length h <= Nat.max (history_max_messages cfg) 4
    /\ total_chars h <= Nat.max (history_max_chars cfg) 2000)
   \/ List.length h < 8) ->
  maybe_compact_history cfg h = h.
Proof.
  intros cfg h H. unfold maybe_compact_history.
  destruct ((List.length h <=? _) && (total_chars h <=? _)) eqn:G1; [reflexivity|].
  destruct (List.length h <? 8) eqn:G2; [reflexivity|].
  exfalso. apply andb_false_iff in G1. apply Nat.ltb_ge in G2.
  destruct H as [[H1 H2]|H3]; [|lia].
  destruct G1 as [G|G]; apply Nat.leb_gt in G; lia.
Qed.

Lemma compact_cases : forall cfg h,
  let mm := Nat.max (history_max_messages cfg) 4 in
  let tk := Nat.min (Nat.max (mm / 2) 6) (List.length h - 1) in
  maybe_compact_history cfg h = h
  \/ (8 <= List.length h /\ 1 <= List.length h - tk /\ tk <= List.length h /\
      maybe_compact_history cfg h
      = mk_msg "assistant" (summary_tag ++ nl ++ summarize_history (firstn (List.length h - tk) h))
          :: skipn (List.length h - tk) h).
Proof.
  intros cfg h mm tk. unfold maybe_compact_history. fold mm tk.
  destruct ((List.length h <=? mm) && _); [now left|].
  destruct (List.length h <? 8) eqn:G2; [now left|].
  apply Nat.ltb_ge in G2.
  assert (Htk : tk <= List.length h - 1) by apply Nat.le_min_r.
  destruct (List.length h - tk =? 0) eqn:G3; [apply Nat.eqb_eq in G3; lia|].
  right. repeat split; lia.
Qed.

Lemma compact_over : forall cfg g,
  let mc := Nat.max (history_max_chars cfg) 2000 in
  let tk := Nat.min (Nat.max (Nat.max (history_max_messages cfg) 4 / 2) 6) (List.length g - 1) in
  mc < total_chars g -> 8 <= List.length g ->
  1 <= List.length g - tk
  /\ maybe_compact_history cfg g
     = mk_msg "assistant" (summary_tag ++ nl ++ summarize_history (firstn (List.length g - tk) g))
       :: skipn (List.length g - tk) g.
Proof.
  intros cfg g mc tk Hc H8. unfold maybe_compact_history. cbv zeta. fold mc tk.
  rewrite (proj2 (Nat.leb_gt _ _) Hc), andb_false_r.
  rewrite (proj2 (Nat.ltb_ge _ _) H8).
  assert (Htk : tk <= List.length g - 1) by apply Nat.le_min_r.
  rewrite (proj2 (Nat.eqb_neq _ _)) by lia. split; [lia|reflexivity].
Qed.
(** C7: a change made by compaction replaces the history by one assistant
    message starting with [[session-summary]] followed by the last
    [tail_keep = min (max (max_messages / 2) 6) (len - 1)] messages,
    unchanged; a history within both ceilings, or shorter than 8, is left
    as it is. *)
Theorem compaction_shape :
  forall (cfg : Config) (h : list ChatMessage),
    let max_messages := Nat.max (history_max_messages cfg) 4 in
    let max_chars := Nat.max (history_max_chars cfg) 2000 in
    let tail_keep := Nat.min (Nat.max (max_messages / 2) 6) (List.length h - 1) in
    (maybe_compact_history cfg h = h
     \/ exists summary : string,
          maybe_compact_history cfg h
          = mk_msg "assistant" summary :: skipn (List.length h - tail_keep) h
          /\ starts_with summary "[session-summary]" = true
          /\ List.length (skipn (List.length h - tail_keep) h) = tail_keep)
    /\ (((List.length h <= max_messages /\ total_chars h <= max_chars) \/ List.length h < 8) ->
        maybe_compact_history cfg h = h).
Proof.
  intros cfg h mm mc tk. split.
  - destruct (compact_cases cfg h) as [E|(H8 & H1 & Htk & E)]; [now left|].
    right. eexists. split; [exact E|]. split.
    + unfold starts_with. apply prefix_app_iff. eexists. reflexivity.
    + rewrite length_skipn. fold mm tk in Htk |- *. lia.
  - apply compact_unchanged.
Qed.

Lemma compaction_shape_witness :
  (8 <= List.length (repeat (mk_msg "user" "hello") 8)
   /\ maybe_compact_history cfg14 (repeat (mk_msg "user" "hello") 8)
      = repeat (mk_msg "user" "hello") 8)
  /\ (maybe_compact_history cfg14 heavy_history <> heavy_history
      /\ exists summary : string,
           maybe_compact_history cfg14 heavy_history
           = mk_msg "assistant" summary :: skipn 13 heavy_history
           /\ starts_with summary "[session-summary]" = true
           /\ List.length (skipn 13 heavy_history) = 7).
Proof.
  assert (H : List.length (repeat (mk_msg "user" "hello") 8) <= Nat.max (history_max_messages cfg14) 4
              /\ total_chars (repeat (mk_msg "user" "hello") 8) <= Nat.max (history_max_chars cfg14) 2000)
    by (split; apply Nat.leb_le; vm_compute; reflexivity).
  assert (Hn : maybe_compact_history cfg14 heavy_history <> heavy_history)
    by (intro E; vm_compute in E; discriminate E).
  split.
  - split; [cbn [List.length repeat]; lia|].
    exact (proj2 (compaction_shape cfg14 (repeat (mk_msg "user" "hello") 8)) (or_introl H)).
  - split; [exact Hn|].
    destruct (proj1 (compaction_shape cfg14 heavy_history)) as [E|E]; [contradiction|exact E].
Defined.

(** C4, as stated, fails: twenty 300-character messages with a ceiling of
    14 messages and 2000 characters compact to a summary and 7 messages
    (2100 characters of tail), which a second run compacts again, turning
    the summary into a summary of the summary. *)
Lemma compaction_not_idempotent :
  maybe_compact_history cfg14 (maybe_compact_history cfg14 heavy_history)
  <> maybe_compact_history cfg14 heavy_history.
Proof.
  intro H. vm_compute in H. discriminate H.
Qed.

Lemma compacted_length_bound : forall cfg h,
  maybe_compact_history cfg h = h
  \/ List.length (maybe_compact_history cfg h) <= Nat.max (history_max_messages cfg) 4
  \/ List.length (maybe_compact_history cfg h) < 8.
Proof.
  intros cfg h.
  destruct (compact_cases cfg h) as [E|(H8 & H1 & Htk & E)]; [now left|right].
  rewrite E. cbn [List.length]. rewrite length_skipn.
  set (mm := Nat.max (history_max_messages cfg) 4) in *.
  assert (Hmm : 4 <= mm) by apply Nat.le_max_r.
  pose proof (Nat.div_mod mm 2 ltac:(lia)) as Hd.
  pose proof (Nat.mod_upper_bound mm 2 ltac:(lia)) as Hm.
  set (tk := Nat.min (Nat.max (mm / 2) 6) (List.length h - 1)) in *.
  assert (Ht1 : tk <= Nat.max (mm / 2) 6) by apply Nat.le_min_l.
  destruct (Nat.le_ge_cases (mm / 2) 6) as [Hs|Hs].
  - rewrite Nat.max_r in Ht1 by exact Hs. right. lia.
  - rewrite Nat.max_l in Ht1 by exact Hs. left. lia.
Qed.

(** C4, amended: a second run with the same ceilings leaves a compacted
    history [h'] unchanged whenever its character count is within the
    character ceiling or it has fewer than 8 messages; when [h'] has at
    least 8 messages and more characters than the ceiling, the second run
    compacts it again: its first [len - tail_keep] messages (at least one)
    are replaced by a new summary message, and the last [tail_keep] are
    kept. *)
Theorem compaction_idempotent_within_char_ceiling :
  forall (cfg : Config) (h : list ChatMessage),
    let h' := maybe_compact_history cfg h in
    let max_chars := Nat.max (history_max_chars cfg) 2000 in
    let tail_keep :=
      Nat.min (Nat.max (Nat.max (history_max_messages cfg) 4 / 2) 6) (List.length h' - 1) in
    ((total_chars h' <= max_chars \/ List.length h' < 8) -> maybe_compact_history cfg h' = h')
    /\ (max_chars < total_chars h' -> 8 <= List.length h' ->
        1 <= List.length h' - tail_keep
        /\ maybe_compact_history cfg h'
           = mk_msg "assistant"
               (summary_tag ++ nl ++ summarize_history (firstn (List.length h' - tail_keep) h'))
             :: skipn (List.length h' - tail_keep) h').
Proof.
  intros cfg h h' mc tk. split.
  - intros Hc. unfold h'.
    destruct (compacted_length_bound cfg h) as [E|[Hl|Hl]].
    + rewrite E. rewrite E. reflexivity.
    + apply compact_unchanged. destruct Hc as [Hc|Hc]; [left; split; assumption|now right].
    + apply compact_unchanged. now right.
  - apply compact_over.
Qed.

Lemma compaction_idempotent_within_char_ceiling_witness :
  (maybe_compact_history cfg14 light_history <> light_history
   /\ total_chars (maybe_compact_history cfg14 light_history) <= 2000
   /\ maybe_compact_history cfg14 (maybe_compact_history cfg14 light_history)
      = maybe_compact_history cfg14 light_history)
  /\ (let h' := maybe_compact_history cfg14 heavy_history in
      2000 < total_chars h' /\ 8 <= List.length h'
      /\ maybe_compact_history cfg14 h'
         = mk_msg "assistant" (summary_tag ++ nl ++ summarize_history (firstn 1 h'))
           :: skipn 1 h').
Proof.
  assert (H : total_chars (maybe_compact_history cfg14 light_history)
              <= Nat.max (history_max_chars cfg14) 2000)
    by (apply Nat.leb_le; vm_compute; reflexivity).
  assert (G1 : Nat.max (history_max_chars cfg14) 2000
               < total_chars (maybe_compact_history cfg14 heavy_history))
    by (apply Nat.leb_le; vm_compute; reflexivity).
  assert (G2 : 8 <= List.length (maybe_compact_history cfg14 heavy_history))
    by (apply Nat.leb_le; vm_compute; reflexivity).
  split.
  - split; [intro E; vm_compute in E; discriminate E|].
    split; [exact H|].
    exact (proj1 (compaction_idempotent_within_char_ceiling cfg14 light_history) (or_introl H)).
  - cbv zeta. split; [exact G1|]. split; [exact G2|].
    exact (proj2 (proj2 (compaction_idempotent_within_char_ceiling cfg14 heavy_history) G1 G2)).
Defined.

(** ** Brace matching *)

Ltac break_scan H :=
  repeat match type of H with
         | context [if ?c then _ else _] => destruct c
         | context [match ?n with O => _ | S _ => _ end] => destruct n
         end.

Lemma brace_scan_range : forall l i d s e j,
  brace_scan l i d s e = Some j -> i <= j < i + String.length l.
Proof.
  induction l as [|b r IH]; intros i d s e j H; simpl in H; [discriminate|].
  break_scan H; try discriminate;
    first [injection H as <-; simpl; lia | apply IH in H; simpl; lia].
Qed.

Lemma brace_scan_extend : forall l r i d s e j,
  brace_scan l i d s e = Some j -> brace_scan (l ++ r) i d s e = Some j.
Proof.
  induction l as [|b l IH]; intros r i d s e j H; simpl in H |- *; [discriminate|].
  break_scan H; try discriminate; first [exact H | now apply IH].
Qed.

Lemma brace_scan_plain : forall n rest i d e,
  str_forall plain_byte n = true ->
  brace_scan (n ++ rest) i d false e = brace_scan rest (i + String.length n) d false e.
Proof.
  induction n as [|c n IH]; intros rest i d e H; simpl in *; [now rewrite Nat.add_0_r|].
  apply andb_true_iff in H as [Hc Hn]. unfold plain_byte in Hc.
  apply andb_true_iff in Hc as [Hc Hr]. apply andb_true_iff in Hc as [Hq Hl].
  apply negb_true_iff in Hq, Hl, Hr. rewrite Hq, Hl, Hr.
  rewrite IH by exact Hn. f_equal. lia.
Qed.

Lemma brace_scan_escaped : forall s rest i d,
  brace_scan (escape_json_str s ++ dq ++ rest) i d true false
  = brace_scan rest (i + String.length (escape_json_str s) + 1) d false false.
Proof.
  induction s as [|c s IH]; intros rest i d; simpl.
  - f_equal. lia.
  - destruct (Ascii.eqb c (ascii_of_nat 34)) eqn:Eq.
    + simpl. etransitivity; [exact (IH rest _ d)|]. f_equal. lia.
    + destruct (Ascii.eqb c "\") eqn:Eb.
      * simpl. etransitivity; [exact (IH rest _ d)|]. f_equal. lia.
      * simpl. rewrite Eb, Eq. etransitivity; [exact (IH rest _ d)|]. f_equal. lia.
Qed.

Lemma brace_scan_str : forall s rest i d,
  brace_scan (render_str s ++ rest) i d false false
  = brace_scan rest (i + String.length (render_str s)) d false false.
Proof.
  intros s rest i d. unfold render_str. rewrite !sapp_assoc.
  assert (Hq : forall x, brace_scan (dq ++ x) i d false false = brace_scan x (S i) d true false)
    by reflexivity.
  rewrite Hq,  brace_scan_escaped, !slen_app. simpl. f_equal. lia.
Qed.

Lemma render_array : forall l,
  render (Array l) = ("[" ++ String.concat "," (map render l) ++ "]")%string.
Proof.
  intros l. simpl.
  assert (E : (fix go (l : list Value) : list string :=
                 match l with [] => [] | x :: r => render x :: go r end) l = map render l)
    by (induction l as [|x l IH]; simpl; [reflexivity|now rewrite IH]).
  now rewrite E.
Qed.

Lemma render_object : forall kvs,
  render (Object kvs) = ("{" ++ String.concat "," (map render_member kvs) ++ "}")%string.
Proof.
  intros kvs. cbn [render]. repeat f_equal.
  induction kvs as [|[k x] r IH]; [reflexivity|]. cbn [map]. rewrite <- IH. reflexivity.
Qed.

Lemma wf_array : forall l, wf_value (Array l) = forallb wf_value l.
Proof. induction l as [|x l IH]; simpl; [reflexivity|now rewrite <- IH]. Qed.

Lemma wf_object : forall kvs,
  wf_value (Object kvs) = forallb (fun kv => wf_value (snd kv)) kvs.
Proof. induction kvs as [|[k x] r IH]; simpl; [reflexivity|now rewrite <- IH]. Qed.

Lemma scans_through_app : forall d x y,
  scans_through d x -> scans_through d y -> scans_through d (x ++ y).
Proof.
  intros d x y Hx Hy rest i. rewrite sapp_assoc, Hx, Hy, slen_app. f_equal. lia.
Qed.

Lemma scans_through_plain : forall d x, str_forall plain_byte x = true -> scans_through d x.
Proof. intros d x H rest i. now apply brace_scan_plain. Qed.

Lemma scans_through_join : forall d items,
  Forall (scans_through d) items -> scans_through d (String.concat "," items).
Proof.
  intros d items H. induction H as [|x r Hx Hr IH].
  - intros rest i. simpl. now rewrite Nat.add_0_r.
  - destruct r as [|y r'].
    + exact Hx.
    + change (scans_through d (x ++ "," ++ String.concat "," (y :: r'))).
      apply scans_through_app; [exact Hx|].
      apply scans_through_app; [apply scans_through_plain; reflexivity|exact IH].
Qed.

Lemma brace_scan_value : forall v, wf_value v = true -> forall d, scans_through d (render v).
Proof.
  apply (value_ind' (fun v => wf_value v = true -> forall d, scans_through d (render v))).
  - intros _ d. apply scans_through_plain. reflexivity.
  - intros [|] _ d; apply scans_through_plain; reflexivity.
  - intros n H d. now apply scans_through_plain.
  - intros s _ d rest i. apply brace_scan_str.
  - intros l Hl Hwf d. rewrite render_array. rewrite wf_array in Hwf.
    apply scans_through_app; [apply scans_through_plain; reflexivity|].
    apply scans_through_app; [|apply scans_through_plain; reflexivity].
    apply scans_through_join. apply Forall_map. rewrite Forall_forall in Hl |- *.
    intros x Hx. apply Hl; [exact Hx|]. rewrite forallb_forall in Hwf. now apply Hwf.
  - intros kvs Hkvs Hwf d. rewrite render_object. rewrite wf_object in Hwf.
    intros rest i. rewrite !sapp_assoc.
    assert (Ho : forall x j, brace_scan ("{" ++ x) j (S d) false false
                             = brace_scan x (S j) (S (S d)) false false) by reflexivity.
    rewrite Ho.
    assert (Hm : scans_through (S d) (String.concat "," (map render_member kvs))).
    { apply scans_through_join. apply Forall_map. rewrite Forall_forall in Hkvs |- *.
      intros [k x] Hin. unfold render_member; cbn [fst snd].
      apply scans_through_app; [intros r j; apply brace_scan_str|].
      apply scans_through_app; [apply scans_through_plain; reflexivity|].
      apply (Hkvs (k, x) Hin). rewrite forallb_forall in Hwf. exact (Hwf (k, x) Hin). }
    rewrite Hm.
    assert (Hc : forall x j, brace_scan ("}" ++ x) j (S (S d)) false false
                             = brace_scan x (S j) (S d) false false) by reflexivity.
    rewrite Hc, !slen_app. simpl. f_equal. lia.
Qed.

Lemma members_scan : forall kvs d,
  forallb (fun kv => wf_value (snd kv)) kvs = true ->
  scans_through d (String.concat "," (map render_member kvs)).
Proof.
  intros kvs d Hwf. apply scans_through_join. apply Forall_map. rewrite Forall_forall.
  intros [k x] Hin. unfold render_member; cbn [fst snd].
  apply scans_through_app; [intros r j; apply brace_scan_str|].
  apply scans_through_app; [apply scans_through_plain; reflexivity|].
  apply brace_scan_value. rewrite forallb_forall in Hwf. exact (Hwf (k, x) Hin).
Qed.

Lemma brace_scan_object : forall kvs post i,
  wf_value (Object kvs) = true ->
  brace_scan (render (Object kvs) ++ post) i 0 false false
  = Some (i + String.length (render (Object kvs)) - 1).
Proof.
  intros kvs post i Hwf. rewrite render_object. rewrite wf_object in Hwf.
  rewrite !sapp_assoc.
  assert (Ho : forall x, brace_scan ("{" ++ x) i 0 false false
                         = brace_scan x (S i) 1 false false) by reflexivity.
  rewrite Ho, (members_scan kvs 0 Hwf).
  assert (Hc : forall x j, brace_scan ("}" ++ x) j 1 false false = Some j) by reflexivity.
  rewrite Hc, !slen_app. simpl. f_equal. lia.
Qed.

Lemma drop_app_len : forall a b, drop (String.length a) (a ++ b) = b.
Proof. induction a as [|c a IH]; intros b; simpl; [reflexivity|apply IH]. Qed.

Lemma get_app_len : forall a c b, String.get (String.length a) (a ++ String c b) = Some c.
Proof. induction a as [|x a IH]; intros c b; simpl; [reflexivity|apply IH]. Qed.

Lemma get_app_len_empty : forall a, String.get (String.length a) (a ++ "") = None.
Proof. induction a as [|x a IH]; simpl; [reflexivity|apply IH]. Qed.

Lemma take_drop_app : forall n s, (take n s ++ drop n s)%string = s.
Proof.
  induction n as [|n IH]; intros s; [reflexivity|].
  destruct s as [|c s]; simpl; [reflexivity|now rewrite IH].
Qed.

Lemma take_length_le : forall n s, String.length (take n s) <= n.
Proof.
  induction n as [|n IH]; intros s; [simpl; lia|].
  destruct s as [|c s]; simpl; [lia|]. specialize (IH s). lia.
Qed.

Lemma render_object_head : forall kvs, exists r, render (Object kvs) = String "{" r.
Proof. intros kvs. rewrite render_object. eexists. reflexivity. Qed.

(** Claim C5: started at the opening brace of a JSON object (a rendered
    [Value.Object], whose string literals may hold escaped quotes) that sits
    between any text before and after it, [find_matching_brace] returns the
    index of the object's own closing brace; and when the text stops before
    that closing brace (any proper prefix of the object), no brace matches
    and it returns [None]. *)
Theorem find_matching_brace_object : forall pre post kvs,
  wf_value (Object kvs) = true ->
  find_matching_brace (pre ++ render (Object kvs) ++ post) (String.length pre)
    = Some (String.length pre + String.length (render (Object kvs)) - 1)
  /\ (forall k, k < String.length (render (Object kvs)) ->
      find_matching_brace (pre ++ take k (render (Object kvs))) (String.length pre) = None).
Proof.
  intros pre post kvs Hwf.
  destruct (render_object_head kvs) as [r Hr].
  split.
  - unfold find_matching_brace, byte_at.
    rewrite Hr. change (String "{" r ++ post)%string with (String "{" (r ++ post)).
    rewrite get_app_len, drop_app_len.
    change (String "{" (r ++ post)) with (String "{" r ++ post)%string.
    rewrite <- Hr. apply brace_scan_object. exact Hwf.
  - intros k Hk. unfold find_matching_brace, byte_at.
    destruct (take k (render (Object kvs))) as [|c t] eqn:Ht.
    + rewrite get_app_len_empty. reflexivity.
    + rewrite get_app_len.
      destruct (Ascii.ascii_dec c "{") as [->|Hc]; [|destruct c as [[] [] [] [] [] [] [] []];
        try reflexivity; exfalso; apply Hc; reflexivity].
      rewrite drop_app_len. rewrite <- Ht.
      destruct (brace_scan (take k (render (Object kvs))) (String.length pre) 0 false false)
        as [j|] eqn:Hs; [|reflexivity].
      exfalso.
      pose proof (brace_scan_range _ _ _ _ _ _ Hs) as Hj.
      apply (brace_scan_extend _ (drop k (render (Object kvs)))) in Hs.
      rewrite take_drop_app in Hs.
      pose proof (brace_scan_object kvs "" (String.length pre) Hwf) as Ho.
      rewrite sapp_nil_r in Ho. assert (Ej : j = (String.length pre + String.length (render (Object kvs)) - 1)) by congruence.
      pose proof (take_length_le k (render (Object kvs))). lia.
Qed.

Lemma find_matching_brace_object_witness :
  render echo_obj = ("{" ++ dq ++ "command" ++ dq ++ ":" ++ dq ++ "echo \" ++ dq ++ "hi\"
                     ++ dq ++ dq ++ "}")%string
  /\ wf_value echo_obj = true
  /\ find_matching_brace ("ab" ++ render echo_obj ++ "zz") 2 = Some 26.
Proof.
  assert (Hw : wf_value echo_obj = true) by reflexivity.
  destruct (find_matching_brace_object "ab" "zz" [("command", Str ("echo " ++ dq ++ "hi" ++ dq))] Hw)
    as [H1 _].
  split; [reflexivity|]. split; [exact Hw|]. unfold echo_obj. etransitivity; [exact H1|]. vm_compute. reflexivity.
Defined.

(** ** Retries after malformed replies *)

Lemma exec_malformed : forall env cfg w a,
  malformed_reply a ->
  exists msg, maybe_execute_assistant_commands env cfg w a = Some (cfg, skipped_result msg, w).
Proof.
  intros env cfg w a [He Hh]. unfold maybe_execute_assistant_commands. rewrite He.
  destruct (contains_legacy_shell_block a); [eauto|].
  simpl in Hh. rewrite Hh. eauto.
Qed.

Lemma agent_loop_malformed : forall f env llm st,
  (forall n h, exists a, llm n h = Some a /\ malformed_reply a) ->
  invalid_format_retries st <= 2 -> unsafe_retries st <= 1 ->
  (2 - invalid_format_retries st) + (1 - unsafe_retries st) <= f ->
  exists st', agent_loop (S f) env llm st = Some (SkippedUnsupported, st')
    /\ requests st' = requests st + (2 - invalid_format_retries st)
                      + (1 - unsafe_retries st) + 1
    /\ invalid_format_retries st' = 2 /\ unsafe_retries st' = 1.
Proof.
  induction f as [|f IH]; intros env llm [cfg h w s u v q] Hllm Hv Hu Hf;
    cbn [invalid_format_retries unsafe_retries requests] in *.
  - assert (v = 2) by lia. assert (u = 1) by lia. subst.
    destruct (Hllm q (maybe_compact_history cfg h)) as [a [Ea Ma]].
    destruct (exec_malformed env cfg w a Ma) as [msg Em].
    cbn [agent_loop t_cfg t_history t_world steps unsafe_retries invalid_format_retries requests].
    rewrite Ea, Em. cbn. eexists. split; [reflexivity|]. cbn. repeat split; lia.
  - destruct (Hllm q (maybe_compact_history cfg h)) as [a [Ea Ma]].
    destruct (exec_malformed env cfg w a Ma) as [msg Em].
    remember (S f) as g eqn:Eg.
    cbn [agent_loop t_cfg t_history t_world steps unsafe_retries invalid_format_retries requests].
    rewrite Ea, Em. subst g.
    cbn [negb had_blocks executed_any invalid_format skipped_any skipped_result andb
         t_cfg t_history t_world steps unsafe_retries invalid_format_retries requests].
    destruct (Nat.ltb_spec v MAX_INVALID_FORMAT_RETRIES) as [Hlt|Hge];
      unfold MAX_INVALID_FORMAT_RETRIES in *.
    + destruct (IH env llm (mk_turn cfg (maybe_compact_history cfg h
                   ++ [mk_msg "assistant" a] ++ [user_msg invalid_format_prompt])%list
                   w s u (S v) (S q)))
        as [st' [E1 [E2 [E3 E4]]]]; cbn [invalid_format_retries unsafe_retries requests] in *;
        try assumption; try lia.
      exists st'. split; [|repeat split; lia].
      rewrite <- E1. f_equal. f_equal. now rewrite <- List.app_assoc.
    + destruct (Nat.ltb_spec u 1) as [Hu1|Hu1].
      * destruct (IH env llm (mk_turn cfg (maybe_compact_history cfg h
                   ++ [mk_msg "assistant" a] ++ [user_msg unsafe_retry_prompt])%list
                   w s (S u) v (S q)))
          as [st' [E1 [E2 [E3 E4]]]]; cbn [invalid_format_retries unsafe_retries requests] in *;
          try assumption; try lia.
        exists st'. split; [|repeat split; lia].
        rewrite <- E1. f_equal. f_equal. now rewrite <- List.app_assoc.
      * assert (v = 2) by lia. assert (u = 1) by lia. subst.
        eexists. split; [reflexivity|]. cbn. repeat split; lia.
Qed.

(** Claim C1 (as the code has it): when every reply of the model in a turn
    is malformed (no call extracted, but a tool-call hint or a legacy
    shell fence present), the turn sends the two invalid-format retries
    and then one unsafe-format retry, since a malformed reply also counts
    as skipped: it makes 4 requests in all and then ends with the skip
    message, with both retry budgets used up. *)
Theorem malformed_replies_retry_budget : forall env llm cfg history w,
  (forall n h, exists a, llm n h = Some a /\ malformed_reply a) ->
  exists st, run_agent_turn_with_system env llm cfg history w = Some (SkippedUnsupported, st)
    /\ requests st = 4 /\ invalid_format_retries st = 2 /\ unsafe_retries st = 1.
Proof.
  intros env llm cfg history w Hllm. unfold run_agent_turn_with_system.
  destruct (agent_loop_malformed 6 env llm (mk_turn cfg history w 0 0 0 0) Hllm)
    as [st [E1 [E2 [E3 E4]]]]; cbn [invalid_format_retries unsafe_retries requests] in *;
    try lia.
  exists st. repeat split; assumption.
Qed.

Lemma malformed_replies_retry_budget_witness :
  malformed_reply bad_reply /\
  exists st, run_agent_turn_with_system env0 (fun _ _ => Some bad_reply) cfg0 [] world0
             = Some (SkippedUnsupported, st)
    /\ requests st = 4 /\ invalid_format_retries st = 2 /\ unsafe_retries st = 1.
Proof.
  assert (Hm : malformed_reply bad_reply) by (split; vm_compute; reflexivity).
  split; [exact Hm|].
  apply (malformed_replies_retry_budget env0 (fun _ _ => Some bad_reply) cfg0 [] world0).
  intros n h. exists bad_reply. split; [reflexivity|exact Hm].
Defined.

(** Claim C1, as the claim words it: three malformed replies in a row, and
    the turn still sends a fourth request (the unsafe-format retry) instead
    of ending after the second invalid-format retry. *)
Lemma malformed_replies_fourth_request :
  exists st, run_agent_turn_with_system env0 (fun _ _ => Some bad_reply) cfg0 [] world0
             = Some (SkippedUnsupported, st)
    /\ requests st = 4 /\ unsafe_retries st = 1.
Proof. eexists. split; [vm_compute; reflexivity|]. vm_compute. split; reflexivity. Qed.

(** ** Fenced payloads *)

Lemma fence_loop_found : forall f text open close skip i out pos end_rel,
  i < String.length text -> find (drop i text) open = Some pos ->
  (skip && (0 <? i + pos)
   && match byte_at text (i + pos - 1) with Some b => Ascii.eqb b "`" | None => false end)
  = false ->
  skip_fence_ws (String.length text) text (i + pos + String.length open) < String.length text ->
  find (drop (skip_fence_ws (String.length text) text (i + pos + String.length open)) text) close
    = Some end_rel ->
  fence_loop (S f) text open close skip i out =
  let js := skip_fence_ws (String.length text) text (i + pos + String.length open) in
  fence_loop f text open close skip (js + end_rel + String.length close)
    (block_calls (trim (take end_rel (drop js text))) out).
Proof.
  intros f text open close skip i out pos end_rel Hi Hf Hs Hj He.
  cbn [fence_loop]. rewrite (proj2 (Nat.ltb_lt _ _) Hi), Hf, Hs.
  rewrite (proj2 (Nat.leb_gt _ _) Hj), He. reflexivity.
Qed.

Lemma fence_loop_skip : forall f text open close i out pos,
  i < String.length text -> find (drop i text) open = Some pos ->
  (0 <? i + pos) = true -> byte_at text (i + pos - 1) = Some "`"%char ->
  fence_loop (S f) text open close true i out
  = fence_loop f text open close true (i + pos + String.length open) out.
Proof.
  intros f text open close i out pos Hi Hf Hp Hb.
  cbn [fence_loop]. rewrite (proj2 (Nat.ltb_lt _ _) Hi), Hf, Hp, Hb. reflexivity.
Qed.

Lemma fence_loop_none : forall f text open close skip i out,
  find (drop i text) open = None -> fence_loop (S f) text open close skip i out = out.
Proof.
  intros f text open close skip i out H. cbn [fence_loop].
  destruct (i <? String.length text); [rewrite H|]; reflexivity.
Qed.

Lemma fence_loop_done : forall f text open close skip i out,
  String.length text <= i -> fence_loop (S f) text open close skip i out = out.
Proof.
  intros f text open close skip i out H. cbn [fence_loop].
  rewrite (proj2 (Nat.ltb_ge _ _) H). reflexivity.
Qed.

Lemma inline_loop_app : forall f text i out,
  inline_loop f text i out = (out ++ inline_loop f text i [])%list.
Proof.
  induction f as [|f IH]; intros text i out; cbn [inline_loop]; [now rewrite app_nil_r|].
  destruct (byte_at text i) as [b|]; [|now rewrite app_nil_r].
  destruct (negb (Ascii.eqb b "{")); [apply IH|].
  destruct (find_matching_brace text i) as [e|]; [|apply IH].
  match goal with |- context [if contains ?x ?y then _ else _] => destruct (contains x y) end;
    [|apply IH].
  match goal with |- context [match from_str ?x with _ => _ end] => destruct (from_str x) as [v|] end;
    [|apply IH].
  rewrite (IH text (S e) (out ++ collect_tool_calls_from_value v)%list).
  rewrite (IH text (S e) ([] ++ collect_tool_calls_from_value v)%list).
  now rewrite app_assoc.
Qed.

Lemma str_forall_app : forall p a b,
  str_forall p (a ++ b) = str_forall p a && str_forall p b.
Proof.
  intros p a b. induction a as [|c a IH]; simpl; [reflexivity|].
  now rewrite IH, andb_assoc.
Qed.

Lemma take_app_len : forall a b k,
  take (String.length a + k) (a ++ b) = (a ++ take k b)%string.
Proof. induction a as [|c a IH]; intros b k; simpl; [reflexivity|now rewrite IH]. Qed.

Lemma rev_str_snoc : forall x c, rev_str (x ++ String c "") = String c (rev_str x).
Proof. induction x as [|d x IH]; intros c; simpl; [reflexivity|now rewrite IH]. Qed.

Lemma trim_start_snoc : forall a c,
  is_ws c = false -> trim_start (a ++ String c "") = (trim_start a ++ String c "")%string.
Proof.
  induction a as [|d a IH]; intros c Hc; simpl.
  - now rewrite Hc.
  - destruct (is_ws d); [now apply IH|reflexivity].
Qed.

Lemma trim_end_cons : forall c r, is_ws c = false -> trim_end (String c r) = String c (trim_end r).
Proof.
  intros c r Hc. unfold trim_end. cbn [rev_str].
  now rewrite trim_start_snoc, rev_str_snoc.
Qed.

Lemma trim_start_head : forall s,
  trim_start s = "" \/ exists c r, trim_start s = String c r /\ is_ws c = false.
Proof.
  induction s as [|c s IH]; simpl; [now left|].
  destruct (is_ws c) eqn:E; [exact IH|right; eauto].
Qed.

Lemma trim_head : forall s c r, trim s = String c r -> is_ws c = false.
Proof.
  intros s c r H. unfold trim in H.
  destruct (trim_start_head s) as [E|[c0 [r0 [E Hc0]]]]; rewrite E in H.
  - discriminate H.
  - rewrite trim_end_cons in H by exact Hc0. injection H as <- _. exact Hc0.
Qed.

Lemma ws_test_false : forall c, is_ws c = false ->
  ((nat_of_ascii c =? 32) || (nat_of_ascii c =? 9) || (nat_of_ascii c =? 13)
   || (nat_of_ascii c =? 10)) = false.
Proof.
  intros c H. unfold is_ws in H. set (n := nat_of_ascii c) in *.
  apply orb_false_iff in H as [H1 H2]. apply Nat.eqb_neq in H2.
  destruct (Nat.leb_spec 9 n); destruct (Nat.leb_spec n 13); simpl in H1; try discriminate;
  repeat (apply orb_false_iff; split); apply Nat.eqb_neq; lia.
Qed.

Lemma skip_ws_stop : forall f text j c,
  byte_at text j = Some c -> is_ws c = false -> skip_fence_ws (S f) text j = j.
Proof.
  intros f text j c Hb Hc. cbn [skip_fence_ws]. rewrite Hb. cbv zeta.
  now rewrite ws_test_false.
Qed.

Lemma get_drop : forall i k s, String.get k (drop i s) = String.get (i + k) s.
Proof.
  induction i as [|i IH]; intros k s; [reflexivity|].
  destruct s as [|c s]; [destruct k; reflexivity|]. apply IH.
Qed.

Lemma contains_cons_false : forall c r p,
  contains (String c r) p = false -> String.prefix p (String c r) = false /\ contains r p = false.
Proof.
  intros c r p H. unfold contains in *. rewrite find_eq in H.
  destruct (String.prefix p (String c r)); [discriminate|].
  split; [reflexivity|]. destruct (find r p); [discriminate|reflexivity].
Qed.

Lemma rev_str_app : forall x y, rev_str (x ++ y) = (rev_str y ++ rev_str x)%string.
Proof.
  induction x as [|c x IH]; intros y; cbn [rev_str String.append].
  - now rewrite sapp_nil_r.
  - rewrite IH. now rewrite sapp_assoc.
Qed.

Lemma rev_str_rev : forall x, rev_str (rev_str x) = x.
Proof.
  induction x as [|c x IH]; [reflexivity|]. cbn [rev_str].
  rewrite rev_str_app, IH. reflexivity.
Qed.

Lemma str_forall_rev : forall p x, str_forall p (rev_str x) = str_forall p x.
Proof.
  induction x as [|c x IH]; [reflexivity|]. cbn [rev_str str_forall].
  rewrite str_forall_app, IH. cbn. now rewrite andb_true_r, andb_comm.
Qed.

Lemma trim_start_ws_app : forall pre x,
  str_forall is_ws pre = true -> trim_start (pre ++ x) = trim_start x.
Proof.
  induction pre as [|c pre IH]; intros x H; [reflexivity|].
  cbn in H. apply andb_true_iff in H as [Hc Hp]. cbn. rewrite Hc. now apply IH.
Qed.

Lemma drop_app_add : forall a k s, drop (String.length a + k) (a ++ s) = drop k s.
Proof. induction a as [|c a IH]; intros k s; [reflexivity|]. cbn. apply IH. Qed.

Lemma prefix_app_long : forall p a b,
  String.length p <= String.length a -> String.prefix p (a ++ b) = String.prefix p a.
Proof.
  induction p as [|x p IH]; intros a b H.
  - destruct a as [|y a]; [destruct b|]; reflexivity.
  - destruct a as [|y a]; [cbn [String.length] in H; lia|].
    cbn [String.append String.prefix].
    destruct (ascii_dec x y); [apply IH; cbn [String.length] in H; lia|reflexivity].
Qed.

Lemma prefix_app_short : forall a p b,
  String.prefix p (a ++ b) = true -> String.length a < String.length p ->
  String.prefix (drop (String.length a) p) b = true.
Proof.
  induction a as [|c a IH]; intros p b H Hl; [exact H|].
  destruct p as [|x p]; [cbn [String.length] in Hl; lia|].
  cbn [String.append String.prefix] in H.
  destruct (ascii_dec x c); [|discriminate H].
  cbn [String.length drop]. apply IH; [exact H|cbn [String.length] in Hl; lia].
Qed.

Lemma contains_app_none : forall a b p,
  contains a p = false -> contains b p = false ->
  (forall k, 0 < k < String.length p -> String.prefix (drop k p) b = false) ->
  contains (a ++ b) p = false.
Proof.
  induction a as [|c a IH]; intros b p Ha Hb Hk; [exact Hb|].
  apply contains_cons_false in Ha as [Hp Ha].
  assert (Pf : String.prefix p (String c a ++ b) = false).
  { destruct (Nat.le_gt_cases (String.length p) (String.length (String c a))) as [L|L].
    - rewrite prefix_app_long by exact L. exact Hp.
    - destruct (String.prefix p (String c a ++ b)) eqn:E; [|reflexivity].
      apply prefix_app_short in E; [|exact L].
      rewrite Hk in E; [discriminate E|]. cbn [String.length] in *. lia. }
  change (String c a ++ b)%string with (String c (a ++ b)) in Pf |- *.
  unfold contains. rewrite find_eq, Pf.
  specialize (IH b p Ha Hb Hk). unfold contains in IH.
  destruct (find (a ++ b) p); [discriminate IH|reflexivity].
Qed.

Lemma contains_ws_left : forall w z a p,
  str_forall is_ws w = true -> is_ws a = false ->
  contains (w ++ z) (String a p) = contains z (String a p).
Proof.
  induction w as [|c w IH]; intros z a p Hw Ha; [reflexivity|].
  cbn [str_forall] in Hw. apply andb_true_iff in Hw as [Hc Hw].
  specialize (IH z a p Hw Ha). unfold contains in *.
  change (String c w ++ z)%string with (String c (w ++ z)). rewrite find_eq.
  assert (Pf : String.prefix (String a p) (String c (w ++ z)) = false).
  { cbn [String.prefix]. destruct (ascii_dec a c) as [->|]; [congruence|reflexivity]. }
  rewrite Pf. destruct (find (w ++ z) (String a p)); exact IH.
Qed.

Lemma contains_app_l : forall a b p, contains (a ++ b) p = false -> contains a p = false.
Proof.
  intros a b p H. destruct (contains a p) eqn:E; [|reflexivity].
  apply contains_iff in E as (x & y & ->).
  assert (T : contains ((x ++ p ++ y) ++ b) p = true)
    by (apply contains_iff; exists x, (y ++ b)%string; now rewrite !sapp_assoc).
  congruence.
Qed.

Lemma find_close : forall x y,
  contains (x ++ "``") "```" = false -> find (x ++ "```" ++ y) "```" = Some (String.length x).
Proof.
  induction x as [|c x IH]; intros y H.
  - assert (P : String.prefix "```" ("" ++ "```" ++ y) = true)
      by (apply prefix_app_iff; exists y; reflexivity).
    rewrite find_eq, P. reflexivity.
  - change (contains (String c (x ++ "``")) "```" = false) in H.
    apply contains_cons_false in H as [Hp H].
    change (String c x ++ "```" ++ y)%string with (String c (x ++ "```" ++ y)).
    rewrite find_eq.
    assert (Pf : String.prefix "```" (String c (x ++ "```" ++ y)) = false).
    { replace (String c (x ++ "```" ++ y)) with (String c (x ++ "``") ++ "`" ++ y)%string
        by (cbn [String.append]; rewrite sapp_assoc; reflexivity).
      rewrite prefix_app_long; [exact Hp|]. cbn [String.length]. rewrite slen_app.
      cbn [String.length]. lia. }
    rewrite Pf, IH by exact H. reflexivity.
Qed.

Lemma drop_succ : forall j s d t, drop j s = String d t -> drop (S j) s = t.
Proof.
  induction j as [|j IH]; intros s d t H.
  - cbn [drop] in H. subst s. reflexivity.
  - destruct s as [|c s]; [discriminate H|]. cbn [drop] in H |- *. exact (IH s d t H).
Qed.

Lemma byte_at_drop : forall j s d t, drop j s = String d t -> byte_at s j = Some d.
Proof.
  intros j s d t H. unfold byte_at. rewrite <- (Nat.add_0_r j), <- get_drop, H. reflexivity.
Qed.

Lemma skip_ws_pad : forall f text j w c r,
  drop j text = (w ++ String c r)%string -> str_forall is_ws w = true -> is_ws c = false ->
  exists w1 w2, w = (w1 ++ w2)%string /\ skip_fence_ws f text j = j + String.length w1.
Proof.
  intros f text j w. revert f j. induction w as [|d w IH]; intros f j c r H Hw Hc.
  - exists "", "". split; [reflexivity|]. cbn [String.length]. rewrite Nat.add_0_r.
    destruct f as [|f]; [reflexivity|].
    exact (skip_ws_stop f text j c (byte_at_drop j text c r H) Hc).
  - cbn [str_forall] in Hw. apply andb_true_iff in Hw as [Hd Hw].
    destruct f as [|f].
    + exists "", (String d w). split; [reflexivity|]. cbn [String.length skip_fence_ws]. lia.
    + cbn [skip_fence_ws]. rewrite (byte_at_drop j text d (w ++ String c r) H). cbv zeta.
      match goal with |- context [if ?t then _ else _] => destruct t end.
      * destruct (IH f (S j) c r (drop_succ j text d _ H) Hw Hc) as (w1 & w2 & E & Hs).
        exists (String d w1), w2. split; [cbn [String.append]; now rewrite E|].
        rewrite Hs. cbn [String.length]. lia.
      * exists "", (String d w). split; [reflexivity|]. cbn [String.length]. lia.
Qed.

Lemma trim_start_app_gen : forall p z,
  trim_start (p ++ z)
  = if String.eqb (trim_start p) "" then trim_start z else (trim_start p ++ z)%string.
Proof.
  induction p as [|c p IH]; intros z; [reflexivity|].
  cbn [String.append trim_start]. destruct (is_ws c); [apply IH|reflexivity].
Qed.

Lemma trim_end_ws_app : forall t w, str_forall is_ws w = true -> trim_end (t ++ w) = trim_end t.
Proof.
  intros t w Hw. unfold trim_end. rewrite rev_str_app, trim_start_ws_app; [reflexivity|].
  now rewrite str_forall_rev.
Qed.

Lemma trim_pad : forall w1 p w2,
  str_forall is_ws w1 = true -> str_forall is_ws w2 = true -> trim (w1 ++ p ++ w2) = trim p.
Proof.
  intros w1 p w2 H1 H2. unfold trim. rewrite trim_start_ws_app by exact H1.
  rewrite trim_start_app_gen. destruct (String.eqb_spec (trim_start p) "") as [E|E].
  - rewrite E. assert (T : trim_start w2 = "").
    { rewrite <- (sapp_nil_r w2). exact (trim_start_ws_app w2 "" H2). }
    rewrite T. reflexivity.
  - apply trim_end_ws_app. exact H2.
Qed.

Lemma json_fence_padded_length : forall pre P post,
  String.length (json_fence_padded pre P post)
  = 10 + String.length pre + String.length P + String.length post.
Proof.
  intros. unfold json_fence_padded. rewrite !slen_app. cbn [String.length]. lia.
Qed.

Lemma is_ws_backtick : is_ws "`" = false.
Proof. reflexivity. Qed.

Lemma fence_pass_padded : forall pre P post v,
  str_forall is_ws pre = true -> str_forall is_ws post = true ->
  contains (P ++ "``") "```" = false -> trim P = P -> from_str P = Some v ->
  collect_tool_calls_from_fence (json_fence_padded pre P post) "```json" "```" false []
  = collect_tool_calls_from_value v.
Proof.
  intros pre P post v Hpre Hpost Hbt Ht Hv.
  assert (Hne : exists c r, P = String c r /\ is_ws c = false).
  { destruct P as [|c r]; [vm_compute in Hv; discriminate Hv|].
    exists c, r. split; [reflexivity|exact (trim_head _ _ _ Ht)]. }
  destruct Hne as (c & r & EP & Hc).
  assert (HL := json_fence_padded_length pre P post).
  unfold collect_tool_calls_from_fence.
  assert (Hw : drop (0 + 0 + String.length "```json") (json_fence_padded pre P post)
               = (pre ++ String c (r ++ post ++ "```"))%string)
    by (rewrite EP; reflexivity).
  destruct (skip_ws_pad (String.length (json_fence_padded pre P post))
              (json_fence_padded pre P post) _ pre c _ Hw Hpre Hc) as (w1 & w2 & Ew & Hjs).
  assert (Hw2 : str_forall is_ws w2 = true)
    by (rewrite Ew, str_forall_app in Hpre; apply andb_true_iff in Hpre; apply Hpre).
  assert (Lw : String.length pre = String.length w1 + String.length w2)
    by (rewrite Ew; apply slen_app).
  assert (LP : String.length P = S (String.length r)) by (rewrite EP; reflexivity).
  assert (Dj : drop (0 + 0 + String.length "```json" + String.length w1) (json_fence_padded pre P post)
               = ((w2 ++ P ++ post) ++ "```")%string).
  { unfold json_fence_padded. rewrite Ew.
    replace ("```json" ++ (w1 ++ w2) ++ P ++ post ++ "```")%string
      with (("```json" ++ w1) ++ ((w2 ++ P ++ post) ++ "```"))%string
      by (rewrite !sapp_assoc; reflexivity).
    replace (0 + 0 + String.length "```json" + String.length w1)
      with (String.length ("```json" ++ w1) + 0) by (rewrite slen_app; cbn [String.length]; lia).
    apply drop_app_add. }
  assert (Cl : contains ((w2 ++ P ++ post) ++ "``") "```" = false).
  { rewrite !sapp_assoc. rewrite contains_ws_left by (exact Hw2 || reflexivity).
    destruct post as [|d post'].
    - rewrite sapp_nil_r in *. exact Hbt.
    - cbn [str_forall] in Hpost. apply andb_true_iff in Hpost as [Hd Hpost'].
      apply contains_app_none.
      + exact (contains_app_l _ _ _ Hbt).
      + rewrite contains_ws_left by (exact (eq_trans (f_equal2 andb Hd Hpost') eq_refl) || reflexivity).
        reflexivity.
      + intros k Hk. destruct k as [|[|[|k]]]; cbn [String.length] in Hk; try lia;
          cbn [drop String.append String.prefix];
          (destruct (ascii_dec "`" d) as [<-|]; [rewrite is_ws_backtick in Hd; discriminate Hd|reflexivity]). }
  assert (He : find (drop (0 + 0 + String.length "```json" + String.length w1)
                      (json_fence_padded pre P post)) "```"
               = Some (String.length (w2 ++ P ++ post))).
  { rewrite Dj, <- (sapp_nil_r "```"), <- sapp_assoc, sapp_assoc. apply find_close. exact Cl. }
  assert (F0 : find (drop 0 (json_fence_padded pre P post)) "```json" = Some 0).
  { rewrite find_eq.
    assert (Pt : String.prefix "```json" (drop 0 (json_fence_padded pre P post)) = true)
      by (apply prefix_app_iff; eexists; reflexivity).
    rewrite Pt. reflexivity. }
  rewrite (fence_loop_found _ _ _ _ _ 0 [] 0 (String.length (w2 ++ P ++ post))); cbv zeta;
    rewrite ?Hjs; [| rewrite HL; lia | exact F0 | reflexivity
                   | rewrite HL; cbn [String.length]; lia | exact He ].
  rewrite Dj, <- (Nat.add_0_r (String.length (w2 ++ P ++ post))), take_app_len.
  change (take 0 "```") with "". rewrite sapp_nil_r, Nat.add_0_r.
  rewrite trim_pad, Ht by assumption.
  unfold block_calls. rewrite EP. cbn [String.eqb negb]. rewrite <- EP, Hv.
  assert (HS : String.length (json_fence_padded pre P post)
               = S (9 + String.length pre + String.length P + String.length post)) by lia.
  rewrite HS, fence_loop_done; [reflexivity|].
  rewrite HL, !slen_app. cbn [String.length]. lia.
Qed.

Lemma fence_pass_short_padded : forall pre P post out,
  str_forall is_ws pre = true -> str_forall is_ws post = true -> contains P "``json" = false ->
  collect_tool_calls_from_fence (json_fence_padded pre P post) "``json" "``" true out = out.
Proof.
  intros pre P post out Hpre Hpost Hj. unfold collect_tool_calls_from_fence.
  assert (HL := json_fence_padded_length pre P post).
  assert (F1 : find (drop 0 (json_fence_padded pre P post)) "``json" = Some 1).
  { change (drop 0 (json_fence_padded pre P post))
      with (String "`" ("``json" ++ pre ++ P ++ post ++ "```")).
    rewrite find_eq.
    replace (String.prefix "``json" (String "`" ("``json" ++ pre ++ P ++ post ++ "```")))
      with false by reflexivity.
    cbn iota. rewrite find_eq.
    assert (Pt : String.prefix "``json" ("``json" ++ pre ++ P ++ post ++ "```") = true)
      by (apply prefix_app_iff; eexists; reflexivity).
    rewrite Pt. reflexivity. }
  rewrite (fence_loop_skip _ _ _ _ 0 out 1); [| rewrite HL; lia | exact F1 | reflexivity | reflexivity].
  assert (HS : String.length (json_fence_padded pre P post)
               = S (9 + String.length pre + String.length P + String.length post)) by lia.
  rewrite HS. apply fence_loop_none.
  change (drop (0 + 1 + String.length "``json") (json_fence_padded pre P post))
    with (pre ++ P ++ post ++ "```")%string.
  assert (C : contains (pre ++ P ++ post ++ "```") "``json" = false).
  { rewrite contains_ws_left by (exact Hpre || reflexivity).
    apply contains_app_none; [exact Hj| |].
    - destruct post as [|d post']; [reflexivity|].
      rewrite contains_ws_left by (exact Hpost || reflexivity). reflexivity.
    - intros k Hk. destruct post as [|d post'].
      + destruct k as [|[|[|[|[|[|k]]]]]]; cbn [String.length] in Hk; try lia; reflexivity.
      + cbn [str_forall] in Hpost. apply andb_true_iff in Hpost as [Hd _].
        destruct k as [|[|[|[|[|[|k]]]]]]; cbn [String.length] in Hk; try lia;
          cbn [drop String.append String.prefix];
          match goal with |- (if ascii_dec ?a d then _ else _) = false =>
            destruct (ascii_dec a d) as [<-|]; [vm_compute in Hd; discriminate Hd|reflexivity] end. }
  unfold contains in C. destruct (find (pre ++ P ++ post ++ "```") "``json"); [discriminate C|reflexivity].
Qed.

(** Claim C2 (as the code has it): for a payload [P] in a [```json] fence,
    with whitespace [pre] and [post] around it inside the fence, where [P]
    parses to [v], is trimmed, contains no triple backtick and no [``json],
    and does not end in a backtick, the calls are those of [v] in source
    order, followed by those the inline pass finds in the same text; when
    the text has no quoted [tool_calls] key, the calls are exactly those of
    [v]. *)
Theorem fenced_payload_calls : forall pre P post v,
  str_forall is_ws pre = true -> str_forall is_ws post = true -> trim P = P ->
  contains (P ++ "``") "```" = false -> contains P "``json" = false ->
  from_str P = Some v ->
  extract_tool_calls (json_fence_padded pre P post)
  = (collect_tool_calls_from_value v
     ++ collect_tool_calls_from_inline_json (json_fence_padded pre P post) [])%list
  /\ (contains (json_fence_padded pre P post) quoted_tool_calls = false ->
      extract_tool_calls (json_fence_padded pre P post) = collect_tool_calls_from_value v).
Proof.
  intros pre P post v Hpre Hpost Ht Hbt Hj Hv.
  assert (E : extract_tool_calls (json_fence_padded pre P post)
              = (collect_tool_calls_from_value v
                 ++ collect_tool_calls_from_inline_json (json_fence_padded pre P post) [])%list).
  { unfold extract_tool_calls. cbv zeta.
    rewrite (fence_pass_padded pre P post v Hpre Hpost Hbt Ht Hv).
    rewrite (fence_pass_short_padded pre P post _ Hpre Hpost Hj).
    unfold collect_tool_calls_from_inline_json. apply inline_loop_app. }
  split; [exact E|]. intros Hq. rewrite E.
  unfold collect_tool_calls_from_inline_json. rewrite inline_loop_absent by exact Hq.
  apply app_nil_r.
Qed.

Lemma fenced_payload_calls_witness :
  (json_fence_padded nl wrapped_payload nl = json_fence wrapped_payload
   /\ from_str wrapped_payload = Some (Object [("tool_calls", Array [call_value "shell" "ls"])])
   /\ extract_tool_calls (json_fence_padded nl wrapped_payload nl)
      = (collect_tool_calls_from_value (Object [("tool_calls", Array [call_value "shell" "ls"])])
         ++ collect_tool_calls_from_inline_json (json_fence_padded nl wrapped_payload nl) [])%list)
  /\ (from_str array_payload = Some (Array [call_value "shell" "ls"; call_value "shell" "pwd"])
   /\ contains (json_fence_padded ("  " ++ nl) array_payload (nl ++ " ")) quoted_tool_calls = false
   /\ extract_tool_calls (json_fence_padded ("  " ++ nl) array_payload (nl ++ " "))
      = collect_tool_calls_from_value (Array [call_value "shell" "ls"; call_value "shell" "pwd"])).
Proof.
  assert (H1 : str_forall is_ws nl = true) by reflexivity.
  assert (H2 : trim wrapped_payload = wrapped_payload) by (vm_compute; reflexivity).
  assert (H3 : contains (wrapped_payload ++ "``") "```" = false) by (vm_compute; reflexivity).
  assert (H4 : contains wrapped_payload "``json" = false) by (vm_compute; reflexivity).
  assert (H5 : from_str wrapped_payload
               = Some (Object [("tool_calls", Array [call_value "shell" "ls"])]))
    by (vm_compute; reflexivity).
  assert (G1 : str_forall is_ws ("  " ++ nl) = true) by reflexivity.
  assert (G1' : str_forall is_ws (nl ++ " ") = true) by reflexivity.
  assert (G2 : trim array_payload = array_payload) by (vm_compute; reflexivity).
  assert (G3 : contains (array_payload ++ "``") "```" = false) by (vm_compute; reflexivity).
  assert (G4 : contains array_payload "``json" = false) by (vm_compute; reflexivity).
  assert (G5 : from_str array_payload
               = Some (Array [call_value "shell" "ls"; call_value "shell" "pwd"]))
    by (vm_compute; reflexivity).
  assert (G6 : contains (json_fence_padded ("  " ++ nl) array_payload (nl ++ " "))
                 quoted_tool_calls = false) by (vm_compute; reflexivity).
  split.
  - split; [reflexivity|]. split; [exact H5|].
    exact (proj1 (fenced_payload_calls _ _ _ _ H1 H1 H2 H3 H4 H5)).
  - split; [exact G5|]. split; [exact G6|].
    exact (proj2 (fenced_payload_calls _ _ _ _ G1 G1' G2 G3 G4 G5) G6).
Defined.

(** Claim C2, as the claim words it: a fenced payload that wraps one call
    in a [tool_calls] object yields that call twice. *)
Lemma fenced_tool_calls_twice :
  extract_tool_calls (json_fence wrapped_payload)
  = [mk_call "shell" "ls"; mk_call "shell" "ls"].
Proof. vm_compute. reflexivity. Qed.

(** ** The command budget of one pass *)

Lemma exec_loop_runs : forall env pre outs rest st,
  List.length outs = List.length pre ->
  seen_commands st + List.length pre <= MAX_COMMANDS_PER_RESPONSE ->
  failed_commands st + fail_count outs < MAX_FAILED_COMMANDS_PER_RESPONSE ->
  forallb (runnable env (st_cfg st)) pre = true ->
  auto_confirm_exec (st_cfg st) = false ->
  (forall k, k < List.length pre ->
     run_shell env (List.length (runs (st_world st)) + k) (nth k (map cmd_of pre) "")
     = Some (nth k outs "")) ->
  exec_loop env (pre ++ rest) st
  = exec_loop env rest
      (mk_state (st_cfg st)
         (mk_world (runs (st_world st) ++ map cmd_of pre) (asks (st_world st)))
         (st_display st ++ cat (map (fun p => shown (fst p) (snd p)) (combine (map cmd_of pre) outs)))
         (st_history st ++ cat (map (fun p => logged (fst p) (snd p)) (combine (map cmd_of pre) outs)))
         (executed_count st + List.length pre) (skipped_count st)
         (seen_commands st + List.length pre) (failed_commands st + fail_count outs)).
Proof.
  intros env pre. induction pre as [|c pre IH]; intros outs rest st Hl Hseen Hfail Hok Hac Hrun.
  - destruct outs; [|discriminate Hl].
    destruct st as [cfg [r a] d h e sk se fc]. cbn - [exec_loop].
    rewrite app_nil_r, !sapp_nil_r, !Nat.add_0_r. reflexivity.
  - destruct outs as [|o outs]; [discriminate Hl|]. injection Hl as Hl.
    cbn [List.length] in *. cbn [forallb] in Hok. apply andb_true_iff in Hok as [Hc Hok].
    unfold runnable, shell_call in Hc.
    apply andb_true_iff in Hc as [Hc Hallow]. apply andb_true_iff in Hc as [Hc Hpre].
    apply andb_true_iff in Hc as [Hsh Hne].
    apply String.eqb_eq in Hsh. apply negb_true_iff in Hne.
    destruct (precheck_command (file_exists env) (cmd_of c)) eqn:Ep; [discriminate Hpre|].
    assert (Hr0 := Hrun 0 ltac:(lia)). cbn [nth map] in Hr0. rewrite Nat.add_0_r in Hr0.
    destruct st as [cfg [r a] d h e sk se fc].
    cbn [st_cfg st_world runs asks st_display st_history executed_count skipped_count
         seen_commands failed_commands] in *.
    cbn [app exec_loop]. unfold exec_step. rewrite Hsh, String.eqb_refl.
    cbn [negb st_cfg st_world runs asks st_display st_history executed_count skipped_count
         seen_commands failed_commands].
    unfold cmd_of in Hne, Ep, Hallow, Hr0 |- *.
    rewrite Hne. rewrite (proj2 (Nat.leb_gt MAX_COMMANDS_PER_RESPONSE se)) by lia.
    cbn [st_cfg st_world st_display st_history executed_count skipped_count
         seen_commands failed_commands].
    rewrite Ep, Hallow, Hac. cbn [negb andb].
    unfold run_and_record. cbn [st_world runs asks st_display st_history executed_count
                                skipped_count seen_commands failed_commands].
    rewrite Hr0.
    assert (Hrun' : forall k, k < List.length pre ->
              run_shell env (List.length (r ++ [trim (command c)])%list + k)
                (nth k (map cmd_of pre) "") = Some (nth k outs "")).
    { intros k Hk. rewrite length_app. cbn [List.length].
      replace (List.length r + 1 + k) with (List.length r + S k) by lia.
      exact (Hrun (S k) ltac:(lia)). }
    destruct (looks_like_command_failure o) eqn:Ef.
    + assert (Hfc : fail_count (o :: outs) = S (fail_count outs))
        by (unfold fail_count; cbn [filter]; rewrite Ef; reflexivity).
      rewrite Hfc in Hfail.
      rewrite (proj2 (Nat.leb_gt MAX_FAILED_COMMANDS_PER_RESPONSE (S fc))) by lia.
      cbn [exec_loop].
      rewrite (IH outs); cbn [st_cfg st_world runs asks st_display st_history executed_count
                       skipped_count seen_commands failed_commands];
        try assumption; try lia.
      rewrite Hfc. cbn [map combine cat fold_right fst snd].
      f_equal. f_equal; try lia; try (rewrite sapp_assoc; reflexivity).
      f_equal. rewrite <- app_assoc. reflexivity.
    + assert (Hfc : fail_count (o :: outs) = fail_count outs)
        by (unfold fail_count; cbn [filter]; rewrite Ef; reflexivity).
      rewrite Hfc in Hfail.
      cbn [exec_loop].
      rewrite (IH outs); cbn [st_cfg st_world runs asks st_display st_history executed_count
                       skipped_count seen_commands failed_commands];
        try assumption; try lia.
      rewrite Hfc. cbn [map combine cat fold_right fst snd].
      f_equal. f_equal; try lia; try (rewrite sapp_assoc; reflexivity).
      f_equal. rewrite <- app_assoc. reflexivity.
Qed.

Lemma second_failure_stops : forall env cfg w answer p1 c rest o1 o,
  extract_tool_calls answer = (p1 ++ c :: rest)%list ->
  List.length p1 < MAX_COMMANDS_PER_RESPONSE ->
  forallb (runnable env cfg) (p1 ++ [c]) = true ->
  auto_confirm_exec cfg = false ->
  List.length o1 = List.length p1 ->
  fail_count o1 = 1 ->
  (forall k, k < List.length p1 ->
     run_shell env (List.length (runs w) + k) (nth k (map cmd_of p1) "")
     = Some (nth k o1 "")) ->
  run_shell env (List.length (runs w) + List.length p1) (cmd_of c) = Some o ->
  looks_like_command_failure o = true ->
  maybe_execute_assistant_commands env cfg w answer
  = Some (cfg,
          mk_result true true false false true
            (nl ++ cat (map (fun p => shown (fst p) (snd p)) (combine (map cmd_of p1) o1))
                ++ shown (cmd_of c) o ++ stop_after_failures_line)
            (auto_exec_header
               ++ cat (map (fun p => logged (fst p) (snd p)) (combine (map cmd_of p1) o1))
               ++ logged (cmd_of c) o ++ stop_after_failures_line),
          mk_world (runs w ++ map cmd_of p1 ++ [cmd_of c]) (asks w)).
Proof.
  intros env cfg w answer p1 c rest o1 o Hx Hl Hok Hac Hlo Hf1 Hrun Hrc Hfo.
  unfold maybe_execute_assistant_commands. rewrite Hx.
  remember (p1 ++ c :: rest)%list as calls eqn:Ec.
  destruct calls as [|c0 calls']; [destruct p1; discriminate Ec|]. rewrite Ec.
  rewrite forallb_app in Hok. apply andb_true_iff in Hok as [Hok Hc].
  cbn [forallb] in Hc. rewrite andb_true_r in Hc.
  rewrite (exec_loop_runs env p1 o1 (c :: rest) (mk_state cfg w "" "" 0 0 0 0));
    cbn [st_cfg st_world runs asks st_display st_history executed_count skipped_count
         seen_commands failed_commands];
    [|exact Hlo|lia|rewrite Hf1; cbv; lia|exact Hok|exact Hac|exact Hrun].
  unfold runnable, shell_call in Hc.
  apply andb_true_iff in Hc as [Hc Hallow]. apply andb_true_iff in Hc as [Hc Hpre].
  apply andb_true_iff in Hc as [Hsh Hne].
  apply String.eqb_eq in Hsh. apply negb_true_iff in Hne.
  destruct (precheck_command (file_exists env) (cmd_of c)) eqn:Ep; [discriminate Hpre|].
  cbn [exec_loop]. unfold exec_step. rewrite Hsh, String.eqb_refl.
  cbn [negb st_cfg st_world runs asks st_display st_history executed_count skipped_count
       seen_commands failed_commands].
  unfold cmd_of in Hne, Ep, Hallow, Hrc |- *.
  rewrite Hne. rewrite (proj2 (Nat.leb_gt MAX_COMMANDS_PER_RESPONSE (0 + List.length p1))) by lia.
  cbn [st_cfg st_world st_display st_history executed_count skipped_count
       seen_commands failed_commands].
  rewrite Ep, Hallow, Hac. cbn [negb andb].
  unfold run_and_record. cbn [st_world runs asks st_display st_history executed_count
                              skipped_count seen_commands failed_commands].
  rewrite length_app, length_map, Hrc, Hfo, Hf1.
  cbn [Nat.leb Nat.ltb Nat.add MAX_FAILED_COMMANDS_PER_RESPONSE push_line st_cfg st_world
       st_display st_history executed_count skipped_count failed_commands runs asks].
  rewrite <- app_assoc. unfold shown, logged. rewrite !sapp_assoc. reflexivity.
Qed.

Lemma ninth_call_stops_few_failures : forall env cfg w answer pre c9 outs,
  extract_tool_calls answer = (pre ++ [c9])%list ->
  List.length pre = MAX_COMMANDS_PER_RESPONSE ->
  forallb (runnable env cfg) pre = true ->
  shell_call c9 = true ->
  auto_confirm_exec cfg = false ->
  List.length outs = List.length pre ->
  (forall k, k < List.length pre ->
     run_shell env (List.length (runs w) + k) (nth k (map cmd_of pre) "")
     = Some (nth k outs "")) ->
  fail_count outs < MAX_FAILED_COMMANDS_PER_RESPONSE ->
  maybe_execute_assistant_commands env cfg w answer
  = Some (cfg,
          mk_result true true false false (0 <? fail_count outs)
            (nl ++ cat (map (fun p => shown (fst p) (snd p)) (combine (map cmd_of pre) outs))
                ++ stop_after_commands_line)
            (auto_exec_header
               ++ cat (map (fun p => logged (fst p) (snd p)) (combine (map cmd_of pre) outs))
               ++ stop_after_commands_line),
          mk_world (runs w ++ map cmd_of pre) (asks w)).
Proof.
  intros env cfg w answer pre c9 outs Hx Hl Hok H9 Hac Hlo Hrun Hf.
  unfold maybe_execute_assistant_commands. rewrite Hx.
  destruct pre as [|c0 pre']; [discriminate Hl|].
  cbn [app]. change (c0 :: (pre' ++ [c9]))%list with ((c0 :: pre') ++ [c9])%list.
  rewrite (exec_loop_runs env (c0 :: pre') outs [c9] (mk_state cfg w "" "" 0 0 0 0));
    cbn [st_cfg st_world runs asks st_display st_history executed_count skipped_count
         seen_commands failed_commands];
    [|exact Hlo|rewrite Hl; reflexivity|exact Hf|exact Hok|exact Hac|exact Hrun].
  unfold shell_call in H9. apply andb_true_iff in H9 as [Hsh Hne].
  apply String.eqb_eq in Hsh. apply negb_true_iff in Hne. unfold cmd_of in Hne.
  cbn [exec_loop]. unfold exec_step. rewrite Hsh, String.eqb_refl, Hne.
  cbn [negb seen_commands]. rewrite Hl. cbn.
  destruct w as [r a]. cbn [runs asks]. reflexivity.
Qed.

(** Claim C6 (as the code has it): for a reply whose calls are 8 runnable
    shell calls followed by a 9th shell call, with confirmation off: when at
    most one of the 8 outputs reads as a failure, the pass runs exactly the
    8 first commands and appends one "stopped after 8 commands" line to both
    texts; when the output of one of the 8 is the second to read as a
    failure, the pass stops right after that command and appends the
    "stopped after 2 failed commands" line instead. *)
Theorem ninth_call_stops : forall env cfg w answer pre c9,
  extract_tool_calls answer = (pre ++ [c9])%list ->
  List.length pre = MAX_COMMANDS_PER_RESPONSE ->
  forallb (runnable env cfg) pre = true ->
  shell_call c9 = true ->
  auto_confirm_exec cfg = false ->
  (forall outs,
     List.length outs = List.length pre ->
     (forall k, k < List.length pre ->
        run_shell env (List.length (runs w) + k) (nth k (map cmd_of pre) "")
        = Some (nth k outs "")) ->
     fail_count outs < MAX_FAILED_COMMANDS_PER_RESPONSE ->
     maybe_execute_assistant_commands env cfg w answer
     = Some (cfg,
             mk_result true true false false (0 <? fail_count outs)
               (nl ++ cat (map (fun p => shown (fst p) (snd p)) (combine (map cmd_of pre) outs))
                   ++ stop_after_commands_line)
               (auto_exec_header
                  ++ cat (map (fun p => logged (fst p) (snd p)) (combine (map cmd_of pre) outs))
                  ++ stop_after_commands_line),
             mk_world (runs w ++ map cmd_of pre) (asks w)))
  /\ (forall p1 c p2 o1 o,
        pre = (p1 ++ c :: p2)%list ->
        List.length o1 = List.length p1 ->
        fail_count o1 = 1 ->
        (forall k, k < List.length p1 ->
           run_shell env (List.length (runs w) + k) (nth k (map cmd_of p1) "")
           = Some (nth k o1 "")) ->
        run_shell env (List.length (runs w) + List.length p1) (cmd_of c) = Some o ->
        looks_like_command_failure o = true ->
        maybe_execute_assistant_commands env cfg w answer
        = Some (cfg,
                mk_result true true false false true
                  (nl ++ cat (map (fun p => shown (fst p) (snd p)) (combine (map cmd_of p1) o1))
                      ++ shown (cmd_of c) o ++ stop_after_failures_line)
                  (auto_exec_header
                     ++ cat (map (fun p => logged (fst p) (snd p)) (combine (map cmd_of p1) o1))
                     ++ logged (cmd_of c) o ++ stop_after_failures_line),
                mk_world (runs w ++ map cmd_of p1 ++ [cmd_of c]) (asks w))).
Proof.
  intros env cfg w answer pre c9 Hx Hl Hok H9 Hac. split.
  - intros outs Hlo Hrun Hf.
    exact (ninth_call_stops_few_failures env cfg w answer pre c9 outs Hx Hl Hok H9 Hac Hlo Hrun Hf).
  - intros p1 c p2 o1 o Ep Hlo Hf1 Hrun Hrc Hfo. subst pre.
    apply (second_failure_stops env cfg w answer p1 c (p2 ++ [c9]) o1 o);
      try assumption.
    + rewrite Hx, <- app_assoc. reflexivity.
    + rewrite length_app in Hl. cbn [List.length] in Hl. lia.
    + rewrite forallb_app in Hok |- *. cbn [forallb] in Hok |- *.
      apply andb_true_iff in Hok as [H1 H2]. apply andb_true_iff in H2 as [H2 _].
      now rewrite H1, H2.
Qed.

Lemma ninth_call_stops_witness :
  extract_tool_calls nine_ls = (repeat (mk_call "shell" "ls") 8 ++ [mk_call "shell" "ls"])%list
  /\ maybe_execute_assistant_commands env0 cfg0 world0 nine_ls
     = Some (cfg0,
             mk_result true true false false (0 <? fail_count (repeat "ok" 8))
               (nl ++ cat (map (fun p => shown (fst p) (snd p))
                               (combine (map cmd_of (repeat (mk_call "shell" "ls") 8))
                                  (repeat "ok" 8)))
                   ++ stop_after_commands_line)
               (auto_exec_header
                  ++ cat (map (fun p => logged (fst p) (snd p))
                            (combine (map cmd_of (repeat (mk_call "shell" "ls") 8))
                               (repeat "ok" 8)))
                  ++ stop_after_commands_line),
             mk_world (runs world0 ++ map cmd_of (repeat (mk_call "shell" "ls") 8)) (asks world0))
  /\ maybe_execute_assistant_commands env_missing cfg0 world0 nine_ls
     = Some (cfg0,
             mk_result true true false false true
               (nl ++ cat (map (fun p => shown (fst p) (snd p))
                               (combine (map cmd_of [mk_call "shell" "ls"])
                                  ["ls: cannot access 'x': No such file or directory"]))
                   ++ shown (cmd_of (mk_call "shell" "ls"))
                        "ls: cannot access 'x': No such file or directory"
                   ++ stop_after_failures_line)
               (auto_exec_header
                  ++ cat (map (fun p => logged (fst p) (snd p))
                            (combine (map cmd_of [mk_call "shell" "ls"])
                               ["ls: cannot access 'x': No such file or directory"]))
                  ++ logged (cmd_of (mk_call "shell" "ls"))
                       "ls: cannot access 'x': No such file or directory"
                  ++ stop_after_failures_line),
             mk_world (runs world0 ++ map cmd_of [mk_call "shell" "ls"]
                       ++ [cmd_of (mk_call "shell" "ls")]) (asks world0)).
Proof.
  assert (Hx : extract_tool_calls nine_ls
               = (repeat (mk_call "shell" "ls") 8 ++ [mk_call "shell" "ls"])%list)
    by (vm_compute; reflexivity).
  assert (Hl : List.length (repeat (mk_call "shell" "ls") 8) = MAX_COMMANDS_PER_RESPONSE)
    by reflexivity.
  assert (Hok0 : forallb (runnable env0 cfg0) (repeat (mk_call "shell" "ls") 8) = true)
    by (vm_compute; reflexivity).
  assert (Hok1 : forallb (runnable env_missing cfg0) (repeat (mk_call "shell" "ls") 8) = true)
    by (vm_compute; reflexivity).
  assert (H9 : shell_call (mk_call "shell" "ls") = true) by (vm_compute; reflexivity).
  assert (Hac : auto_confirm_exec cfg0 = false) by reflexivity.
  split; [exact Hx|]. split.
  - apply (proj1 (ninth_call_stops env0 cfg0 world0 nine_ls _ _ Hx Hl Hok0 H9 Hac)).
    + reflexivity.
    + intros k Hk. cbn [List.length repeat] in Hk.
      do 8 (destruct k as [|k]; [reflexivity|]). lia.
    + vm_compute. lia.
  - apply (proj2 (ninth_call_stops env_missing cfg0 world0 nine_ls _ _ Hx Hl Hok1 H9 Hac)
             [mk_call "shell" "ls"] (mk_call "shell" "ls") (repeat (mk_call "shell" "ls") 6)).
    + reflexivity.
    + reflexivity.
    + vm_compute. reflexivity.
    + intros k Hk. cbn [List.length] in Hk. destruct k as [|k]; [reflexivity|lia].
    + reflexivity.
    + vm_compute. reflexivity.
Defined.

(** Claim C6, as the claim words it: nine runnable shell calls whose
    outputs read as failures; the pass stops after the second command, not
    after the eighth. *)
Lemma nine_failing_calls_stop_early :
  exists cfg' r w',
    maybe_execute_assistant_commands env_missing cfg0 world0 nine_ls = Some (cfg', r, w')
    /\ runs w' = ["ls"; "ls"]
    /\ contains (display_text r) stop_after_failures_line = true
    /\ contains (display_text r) stop_after_commands_line = false.
Proof.
  do 3 eexists. split; [vm_compute; reflexivity|]. vm_compute. repeat split.
Qed.

(* ================================================================== *)
(** * Further properties of the code *)

Lemma agent_loop_ends : forall f env llm st,
  steps st <= 2 -> invalid_format_retries st <= 2 -> unsafe_retries st <= 1 ->
  (3 - steps st) + (2 - invalid_format_retries st) + (1 - unsafe_retries st) <= f ->
  exists e st', agent_loop f env llm st = Some (e, st')
    /\ requests st' <= requests st + (3 - steps st) + (2 - invalid_format_retries st)
                       + (1 - unsafe_retries st).
Proof.
  induction f as [|f IH]; intros env llm [cfg h w s u v q] Hs Hv Hu Hf;
    cbn [steps invalid_format_retries unsafe_retries requests] in *; [lia|].
  cbn [agent_loop t_cfg t_history t_world steps unsafe_retries invalid_format_retries requests].
  repeat match goal with
         | |- context [match ?x with _ => _ end] => destruct x eqn:?
         end.
  all: repeat match goal with
              | H : (_ && _) = true |- _ => apply andb_true_iff in H as [? ?]
              | H : (_ <? _) = true |- _ => apply Nat.ltb_lt in H
              | H : (_ <=? _) = false |- _ => apply Nat.leb_gt in H
              end.
  all: unfold MAX_AUTO_TOOL_STEPS, MAX_INVALID_FORMAT_RETRIES in *.
  all: first
    [ do 2 eexists; split; [reflexivity|cbn [requests]; lia]
    | match goal with
      | |- exists _ _, agent_loop _ _ _ ?st = _ /\ _ =>
          refine (_ (IH env llm st _ _ _ _));
          cbn [steps invalid_format_retries unsafe_retries requests]; try lia;
          intros (te & st2 & E & R); exists te, st2; split; [exact E|lia]
      end ].
Qed.

Lemma trusted_ext_refl : forall c, trusted_ext c c.
Proof. intros [m a d k t x y]. exists []. cbn. now rewrite app_nil_r. Qed.

Lemma trusted_ext_trans : forall a b c, trusted_ext a b -> trusted_ext b c -> trusted_ext a c.
Proof.
  intros a b c [e1 ->] [e2 ->]. exists (e1 ++ e2)%list. cbn. now rewrite app_assoc.
Qed.

Lemma allowed_ext : forall c1 c2 cmd,
  trusted_ext c1 c2 -> is_command_allowed c2 cmd = is_command_allowed c1 cmd.
Proof. intros [m a d k t x y] c2 cmd [e ->]. reflexivity. Qed.

Lemma run_and_record_inv : forall env cfg cmd st fl,
  run_and_record env cfg cmd st = Some fl ->
  runs (st_world (flow_state fl)) = (runs (st_world st) ++ [cmd])%list
  /\ st_cfg (flow_state fl) = cfg /\ seen_commands (flow_state fl) = seen_commands st.
Proof.
  intros env cfg cmd st fl H. unfold run_and_record in H.
  destruct (run_shell env _ cmd) as [out|]; [|discriminate].
  destruct (looks_like_command_failure out);
    [destruct (MAX_FAILED_COMMANDS_PER_RESPONSE <=? _)|];
    injection H as <-; cbn; auto.
Qed.

Lemma exec_step_inv : forall env call st fl,
  exec_step env call st = Some fl -> seen_commands st <= 8 ->
  exists new, runs (st_world (flow_state fl)) = (runs (st_world st) ++ new)%list
    /\ List.length new + seen_commands st <= seen_commands (flow_state fl)
    /\ seen_commands (flow_state fl) <= 8
    /\ Forall (vetted env (st_cfg st)) new
    /\ trusted_ext (st_cfg st) (st_cfg (flow_state fl)).
Proof.
  intros env call st fl H Hs. unfold exec_step in H.
  assert (Keep : forall st', runs (st_world st') = runs (st_world st) -> seen_commands st' = seen_commands st ->
            st_cfg st' = st_cfg st ->
            exists new, runs (st_world st') = (runs (st_world st) ++ new)%list
              /\ List.length new + seen_commands st <= seen_commands st'
              /\ seen_commands st' <= 8 /\ Forall (vetted env (st_cfg st)) new
              /\ trusted_ext (st_cfg st) (st_cfg st')).
  { intros st' E1 E2 E3. exists []. rewrite E1, E2, E3, app_nil_r.
    repeat split; [cbn [List.length]; lia|exact Hs|constructor|apply trusted_ext_refl]. }
  destruct (negb (String.eqb (lower (tool call)) "shell")).
  { injection H as <-. now apply Keep. }
  set (cmd := trim (command call)) in H.
  destruct (String.eqb cmd ""). { injection H as <-. now apply Keep. }
  destruct (Nat.leb_spec MAX_COMMANDS_PER_RESPONSE (seen_commands st)) as [Hge|Hlt].
  { injection H as <-. now apply Keep. }
  unfold MAX_COMMANDS_PER_RESPONSE in Hlt.
  cbn [st_cfg st_world st_display st_history executed_count skipped_count seen_commands
       failed_commands] in H.
  assert (Skip : forall st', runs (st_world st') = runs (st_world st) -> seen_commands st' = S (seen_commands st) ->
            st_cfg st' = st_cfg st ->
            exists new, runs (st_world st') = (runs (st_world st) ++ new)%list
              /\ List.length new + seen_commands st <= seen_commands st'
              /\ seen_commands st' <= 8 /\ Forall (vetted env (st_cfg st)) new
              /\ trusted_ext (st_cfg st) (st_cfg st')).
  { intros st' E1 E2 E3. exists []. rewrite E1, E2, E3, app_nil_r.
    repeat split; [cbn; lia|lia|constructor|apply trusted_ext_refl]. }
  assert (Run : forall cfg' st' fl', run_and_record env cfg' cmd st' = Some fl' ->
            runs (st_world st') = runs (st_world st) -> seen_commands st' = S (seen_commands st) ->
            trusted_ext (st_cfg st) cfg' ->
            precheck_command (file_exists env) cmd = None ->
            is_command_allowed (st_cfg st) cmd = true ->
            exists new, runs (st_world (flow_state fl')) = (runs (st_world st) ++ new)%list
              /\ List.length new + seen_commands st <= seen_commands (flow_state fl')
              /\ seen_commands (flow_state fl') <= 8
              /\ Forall (vetted env (st_cfg st)) new
              /\ trusted_ext (st_cfg st) (st_cfg (flow_state fl'))).
  { intros cfg' st' fl' E R1 S1 T P A. apply run_and_record_inv in E as (E1 & E2 & E3).
    exists [cmd]. rewrite E1, R1, E2, E3, S1. repeat split; [cbn; lia|lia| |exact T].
    constructor; [split; assumption|constructor]. }
  destruct (precheck_command (file_exists env) cmd) as [reason|] eqn:Pc.
  { injection H as <-. now apply Skip. }
  destruct (is_command_allowed (st_cfg st) cmd) eqn:Al; cbn [negb] in H.
  2: { injection H as <-. now apply Skip. }
  destruct (auto_confirm_exec (st_cfg st) && negb (is_trusted_command (st_cfg st) cmd)).
  2: { eapply Run; [exact H|reflexivity|reflexivity|apply trusted_ext_refl|reflexivity|reflexivity]. }
  destruct (ask_user env (asks (st_world st))) as [input|]; [|discriminate].
  cbn [st_cfg st_world st_display st_history executed_count skipped_count seen_commands
       failed_commands] in H.
  destruct (String.eqb (lower (trim input)) "q").
  { injection H as <-. apply Skip; reflexivity. }
  destruct (String.eqb (lower (trim input)) "a").
  { eapply Run; [exact H|reflexivity|reflexivity| |reflexivity|reflexivity].
    destruct (existsb _ _); [apply trusted_ext_refl|].
    exists [command_prefix cmd]. reflexivity. }
  destruct (negb (String.eqb (lower (trim input)) "y")).
  { injection H as <-. apply Skip; reflexivity. }
  eapply Run; [exact H|reflexivity|reflexivity|apply trusted_ext_refl|reflexivity|reflexivity].
Qed.

Lemma exec_loop_inv : forall env calls st st',
  exec_loop env calls st = Some st' -> seen_commands st <= 8 ->
  exists new, runs (st_world st') = (runs (st_world st) ++ new)%list
    /\ List.length new + seen_commands st <= seen_commands st'
    /\ seen_commands st' <= 8
    /\ Forall (vetted env (st_cfg st)) new
    /\ trusted_ext (st_cfg st) (st_cfg st').
Proof.
  induction calls as [|call rest IH]; intros st st' H Hs; cbn [exec_loop] in H.
  - injection H as <-. exists []. rewrite app_nil_r.
    repeat split; [cbn [List.length]; lia|exact Hs|constructor|apply trusted_ext_refl].
  - destruct (exec_step env call st) as [fl|] eqn:E; [|discriminate].
    destruct (exec_step_inv env call st fl E Hs) as (n1 & R1 & L1 & S1 & F1 & T1).
    destruct fl as [s1|s1]; cbn [flow_state] in *.
    + destruct (IH s1 st' H S1) as (n2 & R2 & L2 & S2 & F2 & T2).
      exists (n1 ++ n2)%list. rewrite R2, R1, app_assoc, length_app.
      repeat split; [lia|exact S2| |eapply trusted_ext_trans; eassumption].
      apply Forall_app. split; [exact F1|].
      eapply Forall_impl; [|exact F2]. intros c [P A]. split; [exact P|].
      now rewrite <- (allowed_ext _ _ c T1).
    + injection H as <-. exists n1. repeat split; assumption.
Qed.

Lemma pass_inv : forall env cfg w answer cfg' r w',
  maybe_execute_assistant_commands env cfg w answer = Some (cfg', r, w') ->
  exists new, runs w' = (runs w ++ new)%list /\ List.length new <= 8
    /\ Forall (vetted env cfg) new /\ trusted_ext cfg cfg'.
Proof.
  intros env cfg w answer cfg' r w' H. unfold maybe_execute_assistant_commands in H.
  destruct (extract_tool_calls answer) as [|call calls].
  - exists []. rewrite app_nil_r.
    destruct (contains_legacy_shell_block answer); [|destruct (contains_tool_call_hint answer)];
      injection H as <- <- <-; repeat split;
      solve [constructor | apply trusted_ext_refl | cbn [List.length]; lia].
  - destruct (exec_loop env (call :: calls) (mk_state cfg w "" "" 0 0 0 0)) as [st|] eqn:E;
      [|discriminate].
    injection H as <- <- <-.
    destruct (exec_loop_inv env _ _ _ E (le_0_n 8)) as (new & R & L & S & F & T).
    cbn [st_world st_cfg seen_commands] in *.
    exists new. repeat split; [exact R|lia|exact F|exact T].
Qed.

Lemma verification_runs : forall env w v w',
  run_auto_verification env w = Some (v, w') ->
  exists new, runs w' = (runs w ++ new)%list /\ Forall (fun c => In c verification_commands) new.
Proof.
  intros env w v w' H. unfold run_auto_verification in H.
  destruct (pick_verification_command (file_exists env)) as [[label cmd]|] eqn:P.
  - destruct (run_shell env _ cmd) as [out|]; [|discriminate].
    injection H as _ <-. exists [cmd]. cbn. split; [reflexivity|].
    constructor; [|constructor]. unfold pick_verification_command in P.
    repeat match type of P with context [if ?c then _ else _] => destruct c end;
      try discriminate; injection P as _ <-; cbn; tauto.
  - injection H as _ <-. exists []. rewrite app_nil_r. split; [reflexivity|constructor].
Qed.

Lemma agent_loop_runs : forall f env llm st e st',
  agent_loop f env llm st = Some (e, st') ->
  exists new, runs (t_world st') = (runs (t_world st) ++ new)%list
    /\ Forall (fun c => vetted env (t_cfg st) c \/ In c verification_commands) new
    /\ trusted_ext (t_cfg st) (t_cfg st').
Proof.
  induction f as [|f IH]; intros env llm [cfg h w s u v q] e st' H; [discriminate|].
  cbn [agent_loop t_cfg t_history t_world steps unsafe_retries invalid_format_retries requests]
    in H |- *.
  assert (Same : forall st2, t_world st2 = w -> t_cfg st2 = cfg ->
            exists new, runs (t_world st2) = (runs w ++ new)%list
              /\ Forall (fun c => vetted env cfg c \/ In c verification_commands) new
              /\ trusted_ext cfg (t_cfg st2)).
  { intros st2 -> ->. exists []. rewrite app_nil_r.
    repeat split; [constructor|apply trusted_ext_refl]. }
  destruct (llm q (maybe_compact_history cfg h)) as [answer|].
  2: { injection H as _ <-. now apply Same. }
  destruct (maybe_execute_assistant_commands env cfg w answer) as [[[cfg1 r] w1]|] eqn:Ex.
  2: { injection H as _ <-. now apply Same. }
  destruct (pass_inv env cfg w answer cfg1 r w1 Ex) as (n1 & R1 & _ & F1 & T1).
  assert (Lift : forall l, Forall (fun c => vetted env cfg1 c \/ In c verification_commands) l ->
            Forall (fun c => vetted env cfg c \/ In c verification_commands) l).
  { intros l. apply Forall_impl. intros c [[P A]|I]; [left|right; exact I].
    split; [exact P|]. now rewrite <- (allowed_ext _ _ c T1). }
  assert (After : forall st2 n2, runs (t_world st2) = (runs w1 ++ n2)%list ->
            Forall (fun c => vetted env cfg1 c \/ In c verification_commands) n2 ->
            trusted_ext cfg1 (t_cfg st2) ->
            exists new, runs (t_world st2) = (runs w ++ new)%list
              /\ Forall (fun c => vetted env cfg c \/ In c verification_commands) new
              /\ trusted_ext cfg (t_cfg st2)).
  { intros st2 n2 R2 F2 T2. exists (n1 ++ n2)%list. rewrite R2, R1, app_assoc.
    repeat split; [|eapply trusted_ext_trans; eassumption].
    apply Forall_app. split; [|now apply Lift].
    eapply Forall_impl; [|exact F1]. intros c Hc. now left. }
  assert (Rec : forall st2, t_world st2 = w1 -> t_cfg st2 = cfg1 ->
            agent_loop f env llm st2 = Some (e, st') ->
            exists new, runs (t_world st') = (runs w ++ new)%list
              /\ Forall (fun c => vetted env cfg c \/ In c verification_commands) new
              /\ trusted_ext cfg (t_cfg st')).
  { intros st2 W C E. destruct (IH env llm st2 e st' E) as (n2 & R2 & F2 & T2).
    rewrite W, C in *. now apply (After st' n2). }
  destruct (negb (had_blocks r)).
  { injection H as _ <-. apply (After _ []); cbn [t_world t_cfg];
      [now rewrite app_nil_r|constructor|apply trusted_ext_refl]. }
  destruct (executed_any r).
  - destruct (run_auto_verification env w1) as [[ver w2]|] eqn:Ev.
    2: { injection H as _ <-. apply (After _ []); cbn [t_world t_cfg];
           [now rewrite app_nil_r|constructor|apply trusted_ext_refl]. }
    destruct (verification_runs env w1 ver w2 Ev) as (n2 & R2 & F2).
    destruct (MAX_AUTO_TOOL_STEPS <=? S s).
    + injection H as _ <-. apply (After _ n2); cbn [t_world t_cfg];
        [exact R2| |apply trusted_ext_refl].
      eapply Forall_impl; [|exact F2]. intros c Hc. now right.
    + destruct (IH env llm _ e st' H) as (n3 & R3 & F3 & T3).
      cbn [t_world t_cfg] in R3, F3, T3.
      apply (After st' (n2 ++ n3)%list); [now rewrite R3, R2, app_assoc| |exact T3].
      apply Forall_app. split; [|exact F3].
      eapply Forall_impl; [|exact F2]. intros c Hc. now right.
  - destruct (invalid_format r && (v <? MAX_INVALID_FORMAT_RETRIES)).
    { refine (Rec _ _ _ H); reflexivity. }
    destruct (skipped_any r && (u <? 1)).
    { refine (Rec _ _ _ H); reflexivity. }
    injection H as _ <-. apply (After _ []); cbn [t_world t_cfg];
      [now rewrite app_nil_r|constructor|apply trusted_ext_refl].
Qed.

Lemma chars_count_app : forall a b, chars_count (a ++ b) = chars_count a + chars_count b.
Proof. induction a as [|c a IH]; intros b; simpl; [reflexivity|rewrite IH; lia]. Qed.

Lemma cut_chars_short : forall s count max,
  count + chars_count s < max -> cut_chars s count max = (s, count + chars_count s).
Proof.
  induction s as [|c r IH]; intros count max H; simpl in *; [now rewrite Nat.add_0_r|].
  destruct (is_char_start c).
  - destruct (Nat.eqb_spec count max) as [E|E]; [lia|].
    rewrite IH by lia. f_equal. lia.
  - rewrite IH by lia. reflexivity.
Qed.

Lemma cut_chars_long : forall s count max,
  count <= max -> max <= count + chars_count s ->
  exists rest, s = (fst (cut_chars s count max) ++ rest)%string
    /\ snd (cut_chars s count max) = max
    /\ count + chars_count (fst (cut_chars s count max)) = max
    /\ (rest = "" \/ exists c r, rest = String c r /\ is_char_start c = true).
Proof.
  induction s as [|c r IH]; intros count max H1 H2; simpl in *.
  - exists "". repeat split; [lia|lia|now left].
  - destruct (is_char_start c) eqn:Ec.
    + destruct (Nat.eqb_spec count max) as [E|E].
      * exists (String c r). cbn. repeat split; [lia|lia|right; eauto].
      * destruct (IH (S count) max ltac:(lia) ltac:(lia)) as (rest & R & K & C & B).
        destruct (cut_chars r (S count) max) as [p k]. cbn in *.
        exists rest. rewrite Ec. repeat split; [now rewrite R at 1|exact K|lia|exact B].
    + destruct (IH count max H1 ltac:(lia)) as (rest & R & K & C & B).
      destruct (cut_chars r count max) as [p k]. cbn in *.
      exists rest. rewrite Ec. repeat split; [now rewrite R at 1|exact K|lia|exact B].
Qed.


Lemma brace_scan_close : forall l i d s e j,
  brace_scan l i d s e = Some j -> String.get (j - i) l = Some "}"%char.
Proof.
  induction l as [|b r IH]; intros i d s e j H; [discriminate|].
  pose proof (brace_scan_range _ _ _ _ _ _ H) as Hr.
  assert (Step : forall d' s' e', brace_scan r (S i) d' s' e' = Some j ->
            String.get (j - i) (String b r) = Some "}"%char).
  { intros d' s' e' H'. pose proof (brace_scan_range _ _ _ _ _ _ H') as Hr'.
    replace (j - i) with (S (j - S i)) by lia. apply (IH _ _ _ _ _ H'). }
  cbn [brace_scan] in H.
  destruct s; [destruct e|];
    [apply (Step _ _ _ H)|
     destruct (Ascii.eqb b "\"); [apply (Step _ _ _ H)|];
     destruct (Ascii.eqb b (ascii_of_nat 34)); apply (Step _ _ _ H)|].
  destruct (Ascii.eqb b (ascii_of_nat 34)); [apply (Step _ _ _ H)|].
  destruct (Ascii.eqb b "{"); [apply (Step _ _ _ H)|].
  destruct (Ascii.eqb b "}") eqn:Eb.
  - apply Ascii.eqb_eq in Eb. subst b.
    destruct d as [|[|d]]; [discriminate| |apply (Step _ _ _ H)].
    injection H as <-. now rewrite Nat.sub_diag.
  - apply (Step _ _ _ H).
Qed.

Lemma brace_match_eq : forall c (x : option nat),
  match c with "{"%char => x | _ => None end = if Ascii.eqb c "{" then x else None.
Proof. intros [[] [] [] [] [] [] [] []] x; reflexivity. Qed.

Lemma truncate_short_eq : forall text max_chars suffix,
  chars_count text < max_chars -> truncate_with_suffix text max_chars suffix = text.
Proof.
  intros text max_chars suffix H. unfold truncate_with_suffix.
  rewrite (cut_chars_short text 0 max_chars) by exact H.
  destruct (Nat.ltb_spec (0 + chars_count text) max_chars); [reflexivity|lia].
Qed.

Lemma truncate_long_eq : forall text max_chars suffix,
  max_chars <= chars_count text ->
  exists kept rest, text = (kept ++ rest)%string /\ chars_count kept = max_chars
    /\ (rest = "" \/ exists c r, rest = String c r /\ is_char_start c = true)
    /\ truncate_with_suffix text max_chars suffix = (kept ++ suffix)%string.
Proof.
  intros text max_chars suffix H.
  destruct (cut_chars_long text 0 max_chars (Nat.le_0_l _) H) as (rest & R & K & C & B).
  unfold truncate_with_suffix.
  destruct (cut_chars text 0 max_chars) as [kept k]. cbn [fst snd Nat.add] in *.
  exists kept, rest. repeat split; [exact R|exact C|exact B|].
  rewrite K, Nat.ltb_irrefl. reflexivity.
Qed.

(** X6: [truncate_with_suffix] returns a text with fewer characters than
    the limit unchanged. *)
Theorem truncate_short_unchanged : forall text max_chars suffix,
  chars_count text < max_chars -> truncate_with_suffix text max_chars suffix = text.
Proof. exact truncate_short_eq. Qed.

(** X7: a text with at least [max_chars] characters is cut at a character
    boundary after exactly [max_chars] characters, and the suffix is appended. *)
Theorem truncate_long_cuts : forall text max_chars suffix,
  max_chars <= chars_count text ->
  exists kept rest, text = (kept ++ rest)%string /\ chars_count kept = max_chars
    /\ (rest = "" \/ exists c r, rest = String c r /\ is_char_start c = true)
    /\ truncate_with_suffix text max_chars suffix = (kept ++ suffix)%string.
Proof. exact truncate_long_eq. Qed.

(** X8: the summary written by [summarize_history] has at most 4023
    characters. *)
Theorem summary_bounded : forall messages,
  chars_count (summarize_history messages) <= 4023.
Proof.
  intros messages. unfold summarize_history.
  set (out := ("Compressed earlier context:" ++ nl ++ _)%string).
  destruct (Nat.lt_ge_cases (chars_count out) 4000) as [Hs|Hl].
  - rewrite truncate_short_eq by exact Hs. lia.
  - destruct (truncate_long_eq out 4000 ("..." ++ nl ++ "[summary truncated]") Hl)
      as (kept & rest & _ & C & _ & ->).
    rewrite chars_count_app, C. vm_compute. lia.
Qed.

(** X9: a position returned by [find_matching_brace] lies after the start
    and holds a closing brace. *)
Theorem matching_brace_closes : forall text start e,
  find_matching_brace text start = Some e ->
  start < e /\ byte_at text e = Some "}"%char.
Proof.
  intros text start e H. unfold find_matching_brace in H.
  destruct (byte_at text start) as [c|] eqn:B; [|discriminate].
  rewrite brace_match_eq in H.
  destruct (Ascii.eqb c "{") eqn:Ec; [|discriminate]. apply Ascii.eqb_eq in Ec. subst c.
  unfold byte_at in B. rewrite <- (Nat.add_0_r start), <- get_drop in B.
  destruct (drop start text) as [|c r] eqn:D; [discriminate|].
  cbn in B. injection B as ->.
  cbn [brace_scan Ascii.eqb] in H. cbn in H.
  pose proof (brace_scan_range _ _ _ _ _ _ H) as Hr.
  pose proof (brace_scan_close _ _ _ _ _ _ H) as Hc.
  split; [lia|]. unfold byte_at.
  replace e with (start + S (e - S start)) by lia.
  rewrite <- get_drop, D. exact Hc.
Qed.


Lemma normalize_no_andand : forall s a b,
  contains s "&&" = false -> normalize_go a b s = s.
Proof.
  induction s as [|c r IH]; intros a b H; [reflexivity|].
  apply contains_cons_false in H as [Hp Hr]. cbn [normalize_go].
  destruct (Ascii.eqb c "'" && negb b); [now rewrite IH|].
  destruct (Ascii.eqb c (ascii_of_nat 34) && negb a); [now rewrite IH|].
  destruct (Ascii.eqb c "&" && negb a && negb b) eqn:Ea; [|now rewrite IH].
  destruct r as [|nx r']; [reflexivity|].
  destruct (Ascii.eqb nx "&") eqn:En; [|now rewrite IH].
  exfalso. apply andb_true_iff in Ea as [Ea _]. apply andb_true_iff in Ea as [Ea _].
  apply Ascii.eqb_eq in Ea, En. subst.
  assert (String.prefix "&&" (String "&" (String "&" r')) = true) by (destruct r'; reflexivity).
  congruence.
Qed.

Lemma normalize_length_go : forall n s a b,
  String.length s <= n -> String.length (normalize_go a b s) = String.length s.
Proof.
  induction n as [|n IH]; intros s a b Hn; [destruct s; [reflexivity|cbn in Hn; lia]|].
  destruct s as [|c r]; [reflexivity|]. cbn in Hn. cbn [normalize_go].
  destruct (Ascii.eqb c "'" && negb b); [cbn; rewrite IH by lia; reflexivity|].
  destruct (Ascii.eqb c (ascii_of_nat 34) && negb a); [cbn; rewrite IH by lia; reflexivity|].
  destruct (Ascii.eqb c "&" && negb a && negb b); [|cbn; rewrite IH by lia; reflexivity].
  destruct r as [|nx r']; [reflexivity|].
  destruct (Ascii.eqb nx "&"); cbn [String.length String.append] in Hn |- *;
    rewrite IH by (cbn [String.length]; lia); reflexivity.
Qed.

Lemma normalize_cons : forall a b ch r,
  normalize_go a b (String ch r) =
  if Ascii.eqb ch "'" && negb b then String ch (normalize_go (negb a) b r)
  else if Ascii.eqb ch (ascii_of_nat 34) && negb a then String ch (normalize_go a (negb b) r)
  else if Ascii.eqb ch "&" && negb a && negb b then
    match r with
    | String nx r' =>
        if Ascii.eqb nx "&" then "; " ++ normalize_go a b r'
        else String ch (normalize_go a b r)
    | EmptyString => String ch (normalize_go a b r)
    end
  else String ch (normalize_go a b r).
Proof. reflexivity. Qed.

Lemma normalize_plain : forall a b c r,
  Ascii.eqb c "'" = false -> Ascii.eqb c (ascii_of_nat 34) = false -> Ascii.eqb c "&" = false ->
  normalize_go a b (String c r) = String c (normalize_go a b r).
Proof. intros a b c r H1 H2 H3. rewrite normalize_cons, H1, H2, H3. reflexivity. Qed.

Lemma normalize_amp_single : forall nx t,
  Ascii.eqb nx "&" = false ->
  normalize_go false false (String "&" (String nx t))
  = String "&" (normalize_go false false (String nx t)).
Proof.
  intros nx t H. rewrite normalize_cons.
  assert (Q1 : Ascii.eqb "&" "'" = false) by reflexivity.
  assert (Q2 : Ascii.eqb "&" (ascii_of_nat 34) = false) by reflexivity.
  assert (Q3 : Ascii.eqb "&" "&" = true) by reflexivity.
  rewrite Q1, Q2, Q3, H. reflexivity.
Qed.

Lemma normalize_head : forall a b c r,
  Ascii.eqb c "&" = false -> exists t, normalize_go a b (String c r) = String c t.
Proof.
  intros a b c r Hc. rewrite normalize_cons, Hc. cbn [andb].
  destruct (Ascii.eqb c "'" && negb b); [eauto|].
  destruct (Ascii.eqb c (ascii_of_nat 34) && negb a); eauto.
Qed.

Lemma normalize_idem_go : forall n s a b,
  String.length s <= n -> normalize_go a b (normalize_go a b s) = normalize_go a b s.
Proof.
  induction n as [|n IH]; intros s a b Hn; [destruct s; [reflexivity|cbn in Hn; lia]|].
  destruct s as [|c r]; [reflexivity|]. cbn [String.length] in Hn.
  rewrite (normalize_cons a b c r).
  destruct (Ascii.eqb c "'" && negb b) eqn:E1.
  { rewrite normalize_cons, E1. now rewrite IH by lia. }
  destruct (Ascii.eqb c (ascii_of_nat 34) && negb a) eqn:E2.
  { rewrite normalize_cons, E1, E2. now rewrite IH by lia. }
  destruct (Ascii.eqb c "&" && negb a && negb b) eqn:E3.
  2: { rewrite normalize_cons, E1, E2, E3. now rewrite IH by lia. }
  assert (Ha : Ascii.eqb c "&" = true /\ a = false /\ b = false).
  { apply andb_true_iff in E3 as [E3 Hb]. apply andb_true_iff in E3 as [E Ha].
    apply negb_true_iff in Ha, Hb. auto. }
  destruct Ha as (Ec & -> & ->). apply Ascii.eqb_eq in Ec. subst c.
  destruct r as [|nx r'].
  { reflexivity. }
  destruct (Ascii.eqb nx "&") eqn:En.
  - change ("; " ++ normalize_go false false r')%string
      with (String ";" (String " " (normalize_go false false r'))).
    rewrite !normalize_plain by reflexivity.
    cbn [String.length] in Hn. now rewrite IH by lia.
  - destruct (normalize_head false false nx r' En) as [t Ht].
    rewrite Ht, normalize_amp_single by exact En. f_equal.
    rewrite <- Ht. apply IH. cbn [String.length] in Hn |- *. lia.
Qed.

Lemma sanitize_chars_safe : forall s, str_forall session_byte (sanitize_chars s) = true.
Proof.
  induction s as [|c r IH]; [reflexivity|]. cbn [sanitize_chars].
  destruct (session_byte c) eqn:E; [cbn; now rewrite E, IH|].
  destruct (is_char_start c); [cbn; now rewrite IH|exact IH].
Qed.

Lemma sanitize_chars_id : forall s, str_forall session_byte s = true -> sanitize_chars s = s.
Proof.
  induction s as [|c r IH]; intros H; [reflexivity|].
  cbn in H. apply andb_true_iff in H as [Hc Hr]. cbn [sanitize_chars].
  rewrite Hc, IH by exact Hr. reflexivity.
Qed.





Lemma trim_around : forall pre t post c r d r',
  str_forall is_ws pre = true -> str_forall is_ws post = true ->
  t = String c r -> is_ws c = false -> rev_str t = String d r' -> is_ws d = false ->
  trim (pre ++ t ++ post) = t.
Proof.
  intros pre t post c r d r' Hpre Hpost Ht Hc Hr Hd. unfold trim, trim_end.
  rewrite trim_start_ws_app by exact Hpre.
  assert (E1 : trim_start (t ++ post) = (t ++ post)%string) by (subst t; cbn; now rewrite Hc).
  rewrite E1, rev_str_app.
  rewrite trim_start_ws_app by (now rewrite str_forall_rev).
  rewrite Hr. cbn. rewrite Hd. rewrite <- Hr. apply rev_str_rev.
Qed.

Lemma is_ws_lower : forall c, is_ws (lower_byte c) = is_ws c.
Proof.
  intros c. unfold lower_byte.
  destruct ((65 <=? nat_of_ascii c) && (nat_of_ascii c <=? 90)) eqn:E; [|reflexivity].
  apply andb_true_iff in E as [E1 E2]. apply Nat.leb_le in E1, E2.
  unfold is_ws. rewrite nat_ascii_embedding by lia.
  destruct (Nat.leb_spec 9 (nat_of_ascii c + 32)), (Nat.leb_spec (nat_of_ascii c + 32) 13),
    (Nat.eqb_spec (nat_of_ascii c + 32) 32), (Nat.leb_spec 9 (nat_of_ascii c)),
    (Nat.leb_spec (nat_of_ascii c) 13), (Nat.eqb_spec (nat_of_ascii c) 32);
    cbn; try reflexivity; lia.
Qed.

Lemma lower_rev : forall x, lower (rev_str x) = rev_str (lower x).
Proof.
  induction x as [|c x IH]; [reflexivity|]. cbn [rev_str lower].
  rewrite lower_app, IH. reflexivity.
Qed.

Lemma trim_start_by_spec : forall p s,
  exists a, s = (a ++ trim_start_by p s)%string /\ str_forall p a = true
    /\ (trim_start_by p s = "" \/ exists c r, trim_start_by p s = String c r /\ p c = false).
Proof.
  induction s as [|c r IH]; [exists ""; repeat split; now left|].
  cbn [trim_start_by]. destruct (p c) eqn:E.
  - destruct IH as (a & Ha & Fa & B). exists (String c a). cbn. rewrite E, Fa.
    repeat split; [now rewrite Ha at 1|exact B].
  - exists "". repeat split; right; eauto.
Qed.

Lemma count_byte_app : forall b x y, count_byte b (x ++ y) = count_byte b x + count_byte b y.
Proof. induction x as [|c x IH]; intros y; cbn; [reflexivity|rewrite IH; lia]. Qed.

Lemma count_byte_rev : forall b x, count_byte b (rev_str x) = count_byte b x.
Proof.
  induction x as [|c x IH]; [reflexivity|]. cbn [rev_str count_byte].
  rewrite count_byte_app, IH. cbn. lia.
Qed.

Lemma lines_go_no_nl : forall s cur,
  count_byte (ascii_of_nat 10) cur = 0 ->
  Forall (fun x => count_byte (ascii_of_nat 10) x = 0) (lines_go s cur).
Proof.
  induction s as [|c r IH]; intros cur H; cbn [lines_go].
  - destruct (String.eqb cur ""); constructor; [now rewrite count_byte_rev|constructor].
  - destruct (Ascii.eqb c (ascii_of_nat 10)) eqn:E.
    + constructor; [|now apply IH].
      destruct cur as [|d cur']; [reflexivity|].
      cbn [count_byte] in H.
      assert (Hc : count_byte (ascii_of_nat 10) cur' = 0)
        by (destruct (Ascii.eqb d (ascii_of_nat 10)); lia).
      destruct (Ascii.eqb d (ascii_of_nat 13)); rewrite count_byte_rev;
        [exact Hc|cbn [count_byte]; exact H].
    + apply IH. cbn [count_byte]. rewrite E. exact H.
Qed.

Lemma join_nl_count : forall l,
  Forall (fun x => count_byte (ascii_of_nat 10) x = 0) l ->
  count_byte (ascii_of_nat 10) (join nl l) = List.length l - 1.
Proof.
  unfold join. induction l as [|x l IH]; intros H; [reflexivity|].
  inversion H as [|? ? Hx Hl]; subst.
  destruct l as [|y l]; [cbn [String.concat]; now rewrite Hx|].
  change (String.concat nl (x :: y :: l)) with (x ++ nl ++ String.concat nl (y :: l))%string.
  assert (Hn : count_byte (ascii_of_nat 10) nl = 1) by reflexivity.
  rewrite !count_byte_app, Hx, Hn, IH by exact Hl. cbn [List.length]. lia.
Qed.

Lemma Forall_firstn' : forall {A} (P : A -> Prop) n l, Forall P l -> Forall P (firstn n l).
Proof.
  intros A P n. induction n as [|n IH]; intros l H; [constructor|].
  destruct l as [|x l]; [constructor|]. inversion H; subst. constructor; auto.
Qed.

Lemma prefix_single : forall c b, String.prefix (String c "") (String c b) = true.
Proof. intros c b. apply prefix_app_iff. now exists b. Qed.

Lemma find_byte_first : forall a c b,
  str_forall (fun d => negb (Ascii.eqb d c)) a = true ->
  find (a ++ String c b) (String c "") = Some (String.length a).
Proof.
  induction a as [|d a IH]; intros c b H.
  - rewrite find_eq. cbn [String.append]. now rewrite prefix_single.
  - cbn in H. apply andb_true_iff in H as [Hd Ha]. rewrite find_eq.
    destruct (String.prefix (String c "") (String d a ++ String c b)) eqn:P.
    + apply prefix_app_iff in P as [z Hz]. cbn in Hz. injection Hz as -> _.
      now rewrite Ascii.eqb_refl in Hd.
    + cbn [String.append]. rewrite IH by exact Ha. reflexivity.
Qed.

Lemma nth_char_ascii : forall p c z,
  str_forall (fun d => nat_of_ascii d <? 128) p = true -> is_char_start c = true ->
  nth_char (String.length p) (p ++ String c z) = Some (String c (continuation z)).
Proof.
  induction p as [|d p IH]; intros c z H Hc; cbn [String.append nth_char String.length].
  - now rewrite Hc.
  - cbn [str_forall] in H. apply andb_true_iff in H as [Hd Hp].
    assert (Ed : is_char_start d = true).
    { unfold is_char_start. apply Nat.ltb_lt in Hd.
      destruct (Nat.leb_spec 128 (nat_of_ascii d)); [lia|reflexivity]. }
    rewrite Ed. now apply IH.
Qed.

Lemma str_forall_and : forall f g s,
  str_forall (fun c => f c && g c) s = true -> str_forall f s = true /\ str_forall g s = true.
Proof.
  induction s as [|c s IH]; intros H; [split; reflexivity|].
  cbn [str_forall] in *. apply andb_true_iff in H as [Hc Hs].
  apply andb_true_iff in Hc as [Hf Hg]. destruct (IH Hs) as [A B].
  now rewrite Hf, Hg, A, B.
Qed.

(** X1: every agent turn ends: [run_agent_turn_with_system] returns an
    outcome after at most six model requests, whatever the model answers. *)
Theorem agent_turn_ends : forall env llm cfg history w,
  exists e st, run_agent_turn_with_system env llm cfg history w = Some (e, st)
    /\ requests st <= 6.
Proof.
  intros env llm cfg history w. unfold run_agent_turn_with_system.
  destruct (agent_loop_ends 7 env llm (mk_turn cfg history w 0 0 0 0)) as (e & st & E & R);
    cbn [steps invalid_format_retries unsafe_retries requests] in *; try lia.
  exists e, st. split; [exact E|lia].
Qed.

(** X2: one pass of [maybe_execute_assistant_commands] only appends to
    the commands run, and appends at most eight of them. *)
Theorem pass_runs_at_most_eight : forall env cfg w answer cfg' r w',
  maybe_execute_assistant_commands env cfg w answer = Some (cfg', r, w') ->
  exists new, runs w' = (runs w ++ new)%list /\ List.length new <= 8.
Proof.
  intros env cfg w answer cfg' r w' H.
  destruct (pass_inv env cfg w answer cfg' r w' H) as (new & R & L & _ & _). eauto.
Qed.

Lemma pass_runs_at_most_eight_witness :
  exists cfg' r w', maybe_execute_assistant_commands env0 cfg0 world0 nine_ls = Some (cfg', r, w')
    /\ exists new, runs w' = (runs world0 ++ new)%list /\ List.length new <= 8.
Proof.
  destruct (maybe_execute_assistant_commands env0 cfg0 world0 nine_ls) as [[[c r] w']|] eqn:E.
  - exists c, r, w'. split; [reflexivity|].
    exact (pass_runs_at_most_eight env0 cfg0 world0 nine_ls c r w' E).
  - vm_compute in E. discriminate E.
Defined.

(** X3: every command one pass of [maybe_execute_assistant_commands]
    runs passes [precheck_command] and is allowed by the configuration the pass
    started with. *)
Theorem pass_runs_only_vetted : forall env cfg w answer cfg' r w',
  maybe_execute_assistant_commands env cfg w answer = Some (cfg', r, w') ->
  exists new, runs w' = (runs w ++ new)%list
    /\ Forall (fun c => precheck_command (file_exists env) c = None
                        /\ is_command_allowed cfg c = true) new.
Proof.
  intros env cfg w answer cfg' r w' H.
  destruct (pass_inv env cfg w answer cfg' r w' H) as (new & R & _ & F & _). eauto.
Qed.

Lemma pass_runs_only_vetted_witness :
  exists cfg' r w', maybe_execute_assistant_commands env0 cfg0 world0 shell_reply
                    = Some (cfg', r, w')
    /\ runs w' = ["ls"]
    /\ exists new, runs w' = (runs world0 ++ new)%list
       /\ Forall (fun c => precheck_command (file_exists env0) c = None
                           /\ is_command_allowed cfg0 c = true) new.
Proof.
  destruct (maybe_execute_assistant_commands env0 cfg0 world0 shell_reply)
    as [[[c r] w']|] eqn:E.
  - exists c, r, w'. split; [reflexivity|]. split.
    + revert E. vm_compute. intros E. injection E as _ _ <-. reflexivity.
    + exact (pass_runs_only_vetted env0 cfg0 world0 shell_reply c r w' E).
  - vm_compute in E. discriminate E.
Defined.

(** X4: the only change one pass of
    [maybe_execute_assistant_commands] makes to the configuration is appending
    commands to its trusted list. *)
Theorem pass_config_only_trusts : forall env cfg w answer cfg' r w',
  maybe_execute_assistant_commands env cfg w answer = Some (cfg', r, w') ->
  exists ext, cfg' = mk_config (auto_exec_mode cfg) (auto_exec_allow cfg) (auto_exec_deny cfg)
                       (auto_confirm_exec cfg) (auto_exec_trusted cfg ++ ext)%list
                       (history_max_messages cfg) (history_max_chars cfg).
Proof.
  intros env cfg w answer cfg' r w' H.
  destruct (pass_inv env cfg w answer cfg' r w' H) as (new & _ & _ & _ & T). exact T.
Qed.

Lemma pass_config_only_trusts_witness :
  exists cfg' r w', maybe_execute_assistant_commands env_always cfg_confirm world0 shell_reply
                    = Some (cfg', r, w')
    /\ auto_exec_trusted cfg' = ["ls"]
    /\ exists ext, cfg' = mk_config (auto_exec_mode cfg_confirm) (auto_exec_allow cfg_confirm)
                            (auto_exec_deny cfg_confirm) (auto_confirm_exec cfg_confirm)
                            (auto_exec_trusted cfg_confirm ++ ext)%list
                            (history_max_messages cfg_confirm) (history_max_chars cfg_confirm).
Proof.
  destruct (maybe_execute_assistant_commands env_always cfg_confirm world0 shell_reply)
    as [[[c r] w']|] eqn:E.
  - exists c, r, w'. split; [reflexivity|]. split.
    + revert E. vm_compute. intros E. injection E as <- _ _. reflexivity.
    + exact (pass_config_only_trusts env_always cfg_confirm world0 shell_reply c r w' E).
  - vm_compute in E. discriminate E.
Defined.

(** X5: every command an agent turn runs either passes [precheck_command]
    and is allowed by the configuration the turn started with, or is one of the
    verification commands. *)
Theorem turn_runs_only_vetted : forall env llm cfg history w e st,
  run_agent_turn_with_system env llm cfg history w = Some (e, st) ->
  exists new, runs (t_world st) = (runs w ++ new)%list
    /\ Forall (fun c => (precheck_command (file_exists env) c = None
                         /\ is_command_allowed cfg c = true)
                        \/ In c verification_commands) new.
Proof.
  intros env llm cfg history w e st. unfold run_agent_turn_with_system. intros H.
  destruct (agent_loop_runs _ _ _ _ _ _ H) as (new & R & F & _).
  cbn [t_world t_cfg] in R, F. exists new. split; [exact R|exact F].
Qed.

Lemma turn_runs_only_vetted_witness :
  exists e st, run_agent_turn_with_system env0 (fun _ _ => Some shell_reply) cfg0 [] world0
               = Some (e, st)
    /\ exists new, runs (t_world st) = (runs world0 ++ new)%list
       /\ Forall (fun c => (precheck_command (file_exists env0) c = None
                            /\ is_command_allowed cfg0 c = true)
                           \/ In c verification_commands) new.
Proof.
  destruct (run_agent_turn_with_system env0 (fun _ _ => Some shell_reply) cfg0 [] world0)
    as [[e st]|] eqn:E.
  - exists e, st. split; [reflexivity|].
    exact (turn_runs_only_vetted env0 _ cfg0 [] world0 e st E).
  - vm_compute in E. discriminate E.
Defined.

Lemma rev_str_cons_ne : forall d r, exists x y, rev_str (String d r) = String x y.
Proof.
  intros d r. cbn [rev_str]. destruct (rev_str r) as [|x y]; [now exists d, ""|].
  now exists x, (y ++ String d "")%string.
Qed.

Lemma truncate_short_unchanged_witness :
  chars_count "ab" < 3 /\ truncate_with_suffix "ab" 3 "..." = "ab".
Proof.
  assert (H : chars_count "ab" < 3) by (apply Nat.ltb_lt; reflexivity).
  split; [exact H|exact (truncate_short_unchanged "ab" 3 "..." H)].
Defined.

Lemma truncate_long_cuts_witness :
  2 <= chars_count "abcd" /\
  exists kept rest, "abcd" = (kept ++ rest)%string /\ chars_count kept = 2
    /\ (rest = "" \/ exists c r, rest = String c r /\ is_char_start c = true)
    /\ truncate_with_suffix "abcd" 2 "..." = (kept ++ "...")%string.
Proof.
  assert (H : 2 <= chars_count "abcd") by (apply Nat.leb_le; reflexivity).
  split; [exact H|exact (truncate_long_cuts "abcd" 2 "..." H)].
Defined.

Lemma matching_brace_closes_witness :
  find_matching_brace "x{a}" 1 = Some 3 /\ (1 < 3 /\ byte_at "x{a}" 3 = Some "}"%char).
Proof.
  assert (E : find_matching_brace "x{a}" 1 = Some 3) by (vm_compute; reflexivity).
  split; [exact E|exact (matching_brace_closes "x{a}" 1 3 E)].
Defined.

(** X10: [normalize_windows_shell_command] leaves a command without
    [&&] unchanged. *)
Theorem normalize_no_andand_unchanged : forall cmd,
  contains cmd "&&" = false -> normalize_windows_shell_command cmd = cmd.
Proof. intros cmd H. apply normalize_no_andand. exact H. Qed.

Lemma normalize_no_andand_unchanged_witness :
  contains "cd a; ls" "&&" = false
  /\ normalize_windows_shell_command "cd a; ls" = "cd a; ls".
Proof.
  assert (H : contains "cd a; ls" "&&" = false) by reflexivity.
  split; [exact H|exact (normalize_no_andand_unchanged "cd a; ls" H)].
Defined.

(** X11: [normalize_windows_shell_command] keeps the byte length of the
    command ([&&] becomes [; ]). *)
Theorem normalize_keeps_length : forall cmd,
  String.length (normalize_windows_shell_command cmd) = String.length cmd.
Proof. intros cmd. apply (normalize_length_go (String.length cmd)). lia. Qed.

(** X12: normalizing a command twice gives the same result as once. *)
Theorem normalize_idempotent : forall cmd,
  normalize_windows_shell_command (normalize_windows_shell_command cmd)
  = normalize_windows_shell_command cmd.
Proof. intros cmd. apply (normalize_idem_go (String.length cmd)). lia. Qed.

(** X13: [sanitize_session_name] returns a non-empty name made only of ASCII
    letters, digits, [-] and [_]. *)
Theorem session_name_safe : forall name,
  str_forall session_byte (sanitize_session_name name) = true
  /\ sanitize_session_name name <> "".
Proof.
  intros name. unfold sanitize_session_name.
  destruct (String.eqb (sanitize_chars name) "") eqn:E; [split; [reflexivity|discriminate]|].
  split; [apply sanitize_chars_safe|].
  intros H. rewrite H in E. discriminate E.
Qed.

(** X14: a non-empty name made only of ASCII letters, digits, [-] and [_]
    is returned unchanged by [sanitize_session_name]. *)
Theorem session_name_kept : forall name,
  name <> "" -> str_forall session_byte name = true -> sanitize_session_name name = name.
Proof.
  intros name Hne H. unfold sanitize_session_name. rewrite sanitize_chars_id by exact H.
  destruct (String.eqb_spec name ""); [contradiction|reflexivity].
Qed.

Lemma session_name_kept_witness :
  "my-session_1" <> "" /\ str_forall session_byte "my-session_1" = true
  /\ sanitize_session_name "my-session_1" = "my-session_1".
Proof.
  assert (H1 : "my-session_1" <> "") by discriminate.
  assert (H2 : str_forall session_byte "my-session_1" = true) by reflexivity.
  split; [exact H1|split; [exact H2|exact (session_name_kept _ H1 H2)]].
Defined.

(** X15: [ChatExecutionMode::parse] reads back the name [as_str] gives a
    mode, in any letter case and with surrounding whitespace. *)
Theorem mode_parse_as_str : forall m pre t post,
  str_forall is_ws pre = true -> str_forall is_ws post = true ->
  lower t = mode_as_str m -> mode_parse (pre ++ t ++ post) = Some m.
Proof.
  intros m pre t post Hpre Hpost Ht.
  assert (Hne : forall u c' v, lower u = String c' v -> is_ws c' = false ->
                  exists c r, u = String c r /\ is_ws c = false).
  { intros [|c r] c' v Hu Hc'; [discriminate Hu|]. exists c, r. split; [reflexivity|].
    cbn [lower] in Hu. injection Hu as Hc _. rewrite <- is_ws_lower, Hc. exact Hc'. }
  assert (Hm : exists c' v, mode_as_str m = String c' v /\ is_ws c' = false)
    by (destruct m; do 2 eexists; split; reflexivity).
  assert (Hr : exists c' v, rev_str (mode_as_str m) = String c' v /\ is_ws c' = false)
    by (destruct m; do 2 eexists; split; reflexivity).
  destruct Hm as (c1 & v1 & E1 & W1). destruct Hr as (c2 & v2 & E2 & W2).
  destruct (Hne t c1 v1 (eq_trans Ht E1) W1) as (c & r & Etc & Wc).
  assert (Hrev : lower (rev_str t) = String c2 v2) by (rewrite lower_rev, Ht; exact E2).
  destruct (Hne (rev_str t) c2 v2 Hrev W2) as (d & r' & Ed & Wd).
  unfold mode_parse. rewrite (trim_around pre t post c r d r' Hpre Hpost Etc Wc Ed Wd), Ht.
  destruct m; reflexivity.
Qed.

Lemma mode_parse_as_str_witness :
  str_forall is_ws " " = true /\ str_forall is_ws nl = true
  /\ lower "Agent-Auto" = mode_as_str AgentAuto
  /\ mode_parse (" " ++ "Agent-Auto" ++ nl) = Some AgentAuto.
Proof.
  assert (H1 : str_forall is_ws " " = true) by reflexivity.
  assert (H2 : str_forall is_ws nl = true) by reflexivity.
  assert (H3 : lower "Agent-Auto" = mode_as_str AgentAuto) by reflexivity.
  split; [exact H1|split; [exact H2|split; [exact H3|]]].
  exact (mode_parse_as_str AgentAuto " " "Agent-Auto" nl H1 H2 H3).
Defined.

Lemma trim_quotes_spec : forall s,
  exists a b, s = (a ++ trim_quotes s ++ b)%string
    /\ str_forall is_quote a = true /\ str_forall is_quote b = true
    /\ (trim_quotes s = ""
        \/ exists c r d r', trim_quotes s = String c r /\ is_quote c = false
                            /\ rev_str (trim_quotes s) = String d r' /\ is_quote d = false).
Proof.
  intros s. unfold trim_quotes.
  destruct (trim_start_by_spec is_quote s) as (a & Ha & Fa & B1).
  set (t1 := trim_start_by is_quote s) in *.
  destruct (trim_start_by_spec is_quote (rev_str t1)) as (b' & Hb & Fb & B2).
  set (t2 := trim_start_by is_quote (rev_str t1)) in *.
  assert (Et1 : t1 = (rev_str t2 ++ rev_str b')%string)
    by (rewrite <- rev_str_app, <- Hb; symmetry; apply rev_str_rev).
  exists a, (rev_str b'). split; [|split; [exact Fa|split; [now rewrite str_forall_rev|]]].
  { rewrite Ha at 1. now rewrite Et1. }
  destruct B2 as [E2|(d & r' & E2 & Qd)]; [left; now rewrite E2|right].
  destruct (rev_str_cons_ne d r') as (x & y & Exy). rewrite E2, Exy.
  destruct B1 as [E1|(c & r & E1 & Qc)].
  - exfalso. rewrite E1, E2, Exy in Et1. discriminate Et1.
  - rewrite E1, E2, Exy in Et1. cbn [String.append] in Et1. injection Et1 as Ecx _. subst x.
    exists c, y, d, r'. rewrite <- Exy, rev_str_rev. auto.
Qed.

Lemma trim_quotes_ends : forall s,
  trim_quotes s = ""
  \/ exists c r d r', trim_quotes s = String c r /\ is_quote c = false
                      /\ rev_str (trim_quotes s) = String d r' /\ is_quote d = false.
Proof. intros s. destruct (trim_quotes_spec s) as (a & b & _ & _ & _ & E). exact E. Qed.

(** X16: [trim_quotes] removes only quote bytes, and only from the two ends;
    its result is empty or neither starts nor ends with a quote. *)
Theorem trim_quotes_strips : forall s,
  exists a b, s = (a ++ trim_quotes s ++ b)%string
    /\ str_forall is_quote a = true /\ str_forall is_quote b = true
    /\ (trim_quotes s = ""
        \/ exists c r d r', trim_quotes s = String c r /\ is_quote c = false
                            /\ rev_str (trim_quotes s) = String d r' /\ is_quote d = false).
Proof. exact trim_quotes_spec. Qed.

(** X17: [limit_lines s n] holds [min n (number of lines of s) - 1] newline
    bytes, so at most [n] lines. *)
Theorem limit_lines_newlines : forall s n,
  count_byte (ascii_of_nat 10) (limit_lines s n) = Nat.min n (List.length (lines s)) - 1.
Proof.
  intros s n. unfold limit_lines.
  rewrite join_nl_count by (apply Forall_firstn'; apply lines_go_no_nl; reflexivity).
  now rewrite length_firstn.
Qed.

(** X18: after an ASCII prefix without a double quote, [extract_quoted]
    returns the text between the first two double quotes. *)
Theorem extract_quoted_double : forall p x y,
  str_forall (fun c => (nat_of_ascii c <? 128) && negb (Ascii.eqb c (ascii_of_nat 34))) p = true ->
  str_forall (fun c => negb (Ascii.eqb c (ascii_of_nat 34))) x = true ->
  (x = "" \/ exists c r, x = String c r /\ is_char_start c = true) ->
  extract_quoted (p ++ dq ++ x ++ dq ++ y) = Some x.
Proof.
  intros p x y Hp Hx Hs. apply str_forall_and in Hp as [Ha Hq].
  change (dq ++ x ++ dq ++ y)%string with (String (ascii_of_nat 34) (x ++ dq ++ y)).
  unfold extract_quoted.
  rewrite (find_byte_first p (ascii_of_nat 34) _ Hq).
  rewrite (nth_char_ascii p (ascii_of_nat 34) _ Ha eq_refl).
  assert (Hc : continuation (x ++ dq ++ y) = "").
  { destruct Hs as [->|(c & r & -> & Hc)]; cbn [String.append continuation];
      [reflexivity|now rewrite Hc]. }
  rewrite Hc, drop_app_add. cbn [drop].
  change (x ++ dq ++ y)%string with (x ++ String (ascii_of_nat 34) y)%string.
  rewrite (find_byte_first x (ascii_of_nat 34) y Hx).
  rewrite <- (Nat.add_0_r (String.length x)), take_app_len. cbn [take].
  now rewrite sapp_nil_r.
Qed.

Lemma extract_quoted_double_witness :
  extract_quoted ("say 'hi' " ++ dq ++ "there" ++ dq ++ " ok") = Some "there".
Proof.
  apply extract_quoted_double; [reflexivity|reflexivity|].
  right. exists "t"%char, "here". split; reflexivity.
Defined.

(** X19: a non-empty command of at most 700 bytes whose program is not
    python, python3 or pip passes [precheck_command]. *)
Theorem precheck_other_programs : forall fe cmd tok0 toks,
  split_whitespace cmd = tok0 :: toks ->
  ~ In (lower tok0) ["python"; "python3"; "pip"] ->
  String.length cmd <= 700 ->
  precheck_command fe cmd = None.
Proof.
  intros fe cmd tok0 toks Hs Hn Hl. unfold precheck_command. rewrite Hs.
  assert (L : (700 <? String.length cmd) = false) by (apply Nat.ltb_ge; exact Hl).
  assert (P1 : String.eqb (lower tok0) "python" = false)
    by (apply String.eqb_neq; intros E; apply Hn; rewrite E; left; reflexivity).
  assert (P2 : String.eqb (lower tok0) "python3" = false)
    by (apply String.eqb_neq; intros E; apply Hn; rewrite E; right; left; reflexivity).
  assert (P3 : String.eqb (lower tok0) "pip" = false)
    by (apply String.eqb_neq; intros E; apply Hn; rewrite E; right; right; left; reflexivity).
  rewrite L, P1, P2, P3, andb_false_r. reflexivity.
Qed.

Lemma precheck_other_programs_witness :
  precheck_command (fun _ => false) "ls -la" = None.
Proof.
  apply (precheck_other_programs (fun _ => false) "ls -la" "ls" ["-la"]);
    [reflexivity| |apply Nat.leb_le; reflexivity].
  cbn. intros [E|[E|[E|[]]]]; discriminate E.
Defined.

Lemma strip_prefix_some : forall s p v, strip_prefix s p = Some v -> s = (p ++ v)%string.
Proof.
  intros s p v H. unfold strip_prefix in H.
  destruct (String.prefix p s) eqn:P; [|discriminate H]. injection H as <-.
  apply prefix_app_iff in P as [z ->]. now rewrite drop_app_len.
Qed.

(** X20: a value found by [parse_flag_value] is a whitespace token of the
    command with the prefix removed and its end quotes trimmed; it neither
    starts nor ends with a quote. *)
Theorem flag_value_from_token : forall cmd prefix v,
  parse_flag_value cmd prefix = Some v ->
  exists raw, In (prefix ++ raw)%string (split_whitespace cmd) /\ v = trim_quotes raw
    /\ (v = "" \/ exists c r d r', v = String c r /\ is_quote c = false
                                 /\ rev_str v = String d r' /\ is_quote d = false).
Proof.
  intros cmd prefix v. unfold parse_flag_value.
  induction (split_whitespace cmd) as [|tok toks IH]; intros H; [discriminate H|].
  cbn [flag_value_go] in H. destruct (strip_prefix tok prefix) as [raw|] eqn:E.
  - injection H as <-. exists raw. rewrite <- (strip_prefix_some _ _ _ E).
    split; [now left|split; [reflexivity|apply trim_quotes_ends]].
  - destruct (IH H) as (raw & Hin & Hv & Hq). exists raw. split; [now right|auto].
Qed.

Lemma flag_value_from_token_witness :
  parse_flag_value "rg --glob='*.rs' src" "--glob=" = Some "*.rs"
  /\ exists raw, In ("--glob=" ++ raw)%string (split_whitespace "rg --glob='*.rs' src")
       /\ "*.rs" = trim_quotes raw
       /\ ("*.rs" = "" \/ exists c r d r', "*.rs" = String c r /\ is_quote c = false
                           /\ rev_str "*.rs" = String d r' /\ is_quote d = false).
Proof.
  assert (E : parse_flag_value "rg --glob='*.rs' src" "--glob=" = Some "*.rs")
    by (vm_compute; reflexivity).
  split; [exact E|exact (flag_value_from_token _ _ _ E)].
Defined.

(** X21: a glob found by [parse_name_glob] neither starts nor ends with a
    quote. *)
Theorem name_glob_unquoted : forall cmd g,
  parse_name_glob cmd = Some g ->
  g = "" \/ exists c r d r', g = String c r /\ is_quote c = false
                            /\ rev_str g = String d r' /\ is_quote d = false.
Proof.
  intros cmd g H. unfold parse_name_glob in H.
  destruct (find cmd "-name") as [idx|]; [|discriminate H].
  destruct (split_whitespace _) as [|tok toks]; [discriminate H|].
  injection H as <-. apply trim_quotes_ends.
Qed.

Lemma name_glob_unquoted_witness :
  parse_name_glob "find . -name '*.rs'" = Some "*.rs"
  /\ ("*.rs" = "" \/ exists c r d r', "*.rs" = String c r /\ is_quote c = false
                      /\ rev_str "*.rs" = String d r' /\ is_quote d = false).
Proof.
  assert (E : parse_name_glob "find . -name '*.rs'" = Some "*.rs") by (vm_compute; reflexivity).
  split; [exact E|exact (name_glob_unquoted _ _ E)].
Defined.
